(** * Password-rotation flows over a hosted browser: a shallow embedding

    The repository holds five independent scripts (Fandom, PCPartPicker,
    Zillow, weather.com, Wikipedia).  Each one obtains a page handle from the
    remote browser provider, validates its inputs, and then drives the page
    through a fixed sequence of waits, fills and clicks inside one
    [try]/[catch].

    The page is an external collaborator.  A run is modelled against a
    _script_: the n-th call issued to the provider or the page receives the
    n-th answer of the script, which either rejects the call or resolves it.
    Every call is recorded in a trace with the options the source passes,
    every console line in a log, and a flow is a computation in a
    state-and-exception monad over that world.

    What the embedding takes for granted about the platform: an awaited call
    settles (it resolves or it rejects); [page.url()] and
    [page.waitForTimeout] do not reject; writing to the console does not
    throw.  The URL parser is the platform's and is a parameter. *)

From Stdlib Require Import String Ascii List Arith NArith Lia Bool DecimalString.
From stdpp Require Import base gmap strings.
Import ListNotations.
Open Scope string_scope.

(** ** JavaScript strings and values *)

(** [s.startsWith(t)] *)
Fixpoint starts_with (s t : string) {struct t} : bool :=
  match t with
  | EmptyString => true
  | String c t' =>
      match s with
      | EmptyString => false
      | String d s' => Ascii.eqb c d && starts_with s' t'
      end
  end.

(** [s.includes(t)] *)
Fixpoint includes (s t : string) : bool :=
  if starts_with s t then true
  else match s with
       | EmptyString => false
       | String _ s' => includes s' t
       end.

(** A string in double quotes, as the selectors have them. *)
Definition q (s : string) : string :=
  String (ascii_of_nat 34) (s +:+ String (ascii_of_nat 34) EmptyString).

(** [`${n}`] for a non-negative integer *)
Definition string_of_nat (n : nat) : string :=
  NilZero.string_of_uint (Nat.to_uint n).

Definition string_of_N (n : N) : string :=
  NilZero.string_of_uint (N.to_uint n).

(** ['*'.repeat(n)] *)
Fixpoint repeat_star (n : nat) : string :=
  match n with
  | O => ""
  | S n' => String "*" (repeat_star n')
  end.

(** [parts.join(', ')] *)
Fixpoint join_comma (parts : list string) : string :=
  match parts with
  | [] => ""
  | [p] => p
  | p :: rest => p +:+ ", " +:+ join_comma rest
  end.

(** [s.replace(/\/$/, '')]: drops one trailing slash *)
Fixpoint strip_trailing_slash (s : string) : string :=
  match s with
  | EmptyString => EmptyString
  | String c EmptyString => if Ascii.eqb c "/" then EmptyString else s
  | String c s' => String c (strip_trailing_slash s')
  end.

(** A value of type [string | undefined], as [process.env.X] is. *)
Definition jsval := option string.

(** Truthiness of a [string | undefined]: defined and not empty. *)
Definition truthy (v : jsval) : bool :=
  match v with
  | Some s => negb (String.eqb s "")
  | None => false
  end.

(** [a || b] on [string | undefined] *)
Definition or_else (a b : jsval) : jsval := if truthy a then a else b.

(** [a || 'literal'] *)
Definition or_default (a : jsval) (d : string) : string :=
  match a with
  | Some s => if String.eqb s "" then d else s
  | None => d
  end.

(** The string carried by a value that validation has shown to be truthy. *)
Definition the (v : jsval) : string := default "" v.

(** [process.env] *)
Abbreviation ProcessEnv := (gmap string string).

(** ** Thrown values *)

(** What a rejected call throws: an [Error] object with its [name] and
    [message], or any other value, kept as its string conversion. *)
Inductive Exn :=
| ErrorObj (name message : string)
| Thrown (repr : string).

(** [String(err)]: [Error.prototype.toString] for an error object. *)
Definition exn_toString (e : Exn) : string :=
  match e with
  | ErrorObj n m =>
      if String.eqb m "" then n
      else if String.eqb n "" then m
      else n +:+ ": " +:+ m
  | Thrown s => s
  end.

(** [`${err?.message || err}`] *)
Definition message_or_self (e : Exn) : string :=
  match e with
  | ErrorObj _ m => if String.eqb m "" then exn_toString e else m
  | Thrown s => s
  end.

(** The [message] of a thrown value (empty when it has none). *)
Definition exn_message (e : Exn) : string :=
  match e with
  | ErrorObj _ m => m
  | Thrown _ => ""
  end.

(** ** The page interface *)

Inductive Locator :=
| Css (sel : string)                    (* page.locator(sel) *)
| First (l : Locator)                   (* l.first() *)
| FilterHas (l has : Locator)           (* l.filter({ has }) *)
| Within (l : Locator) (sel : string)   (* l.locator(sel) *)
| ByRole (role pattern : string)        (* page.getByRole(role, { name: /pattern/i }) *)
| ByLabel (pattern : string).           (* page.getByLabel(/pattern/i) *)

Inductive ElState := Visible | Hidden | Detached.
Inductive LoadState := OnLoad | OnDomContentLoaded.

(** One call to the provider or to the page, with the options the source
    passes.  A [timeout] of [None] means the call site passes no timeout. *)
Inductive Op :=
| BrowserConnect (sessionId : string)
| BrowserCreate
| FirstPage                             (* browser.contexts()[0].pages()[0] *)
| Goto (url : string) (timeout : option N)        (* waitUntil: 'load' *)
| WaitForSelector (sel : string) (st : ElState) (timeout : option N)
| WaitFor (l : Locator) (st : ElState) (timeout : option N)
| WaitForNavigation (timeout : option N)          (* waitUntil: 'load' *)
| WaitForLoadState (ls : LoadState) (timeout : option N)
| WaitForURL (host : string) (timeout : option N)
| WaitForTimeout (ms : N)
| Click (l : Locator) (delay timeout : option N)
| Fill (l : Locator) (value : string) (timeout : option N)
| TypeText (l : Locator) (value : string) (delay : N)
| Press (l : Locator) (key : string)
| IsVisible (l : Locator) (timeout : option N)
| Count (l : Locator)
| InnerText (l : Locator)
| PageUrl
| EventsWaitFor (name : string).

(** The [Response] that [page.goto] resolves to. *)
Record Response := mkResponse {
  resp_ok : bool;
  resp_status : N;
  resp_statusText : string
}.

(** What the outside world answers to one call.  The call reads the fields it
    needs: [ans_exn] is the rejection, if any; the others are the resolved
    value in each shape a call can return.  [ans_late] orders two calls joined
    by [Promise.all]: whether this call settles after the one started just
    before it. *)
Record Answer := mkAnswer {
  ans_exn : option Exn;
  ans_bool : bool;
  ans_str : string;
  ans_nat : nat;
  ans_resp : option Response;
  ans_otp : option string;
  ans_late : bool
}.

Definition Script := nat -> Answer.

Definition Event : Type := Op * option Exn.

Inductive Level := LogL | InfoL | WarnL | ErrorL.

(** The world a flow acts on: the calls issued so far with their outcome, the
    console, and the Wikipedia module's mutable [INPUTS.totpCode]. *)
Record State := mkState {
  trace : list Event;
  console : list (Level * string);
  totpCode : string
}.

Definition init_state (totp : string) : State :=
  {| trace := []; console := []; totpCode := totp |}.

(** ** The monad of flows *)

Inductive Res (A : Type) :=
| Ret (a : A)
| Throw (e : Exn).
Arguments Ret {A} a.
Arguments Throw {A} e.

Definition M (A : Type) : Type := Script -> State -> Res A * State.

Definition ret {A} (a : A) : M A := fun _ st => (Ret a, st).

Definition throw {A} (e : Exn) : M A := fun _ st => (Throw e, st).

Definition bind {A B} (m : M A) (k : A -> M B) : M B :=
  fun sc st =>
    match m sc st with
    | (Ret a, st') => k a sc st'
    | (Throw e, st') => (Throw e, st')
    end.

Declare Scope flow_scope.
Delimit Scope flow_scope with flow.
Notation "x <- m ;; k" := (bind m (fun x => k))
  (at level 100, m at next level, right associativity) : flow_scope.
Notation "m ;; k" := (bind m (fun _ => k))
  (at level 100, right associativity) : flow_scope.
Open Scope flow_scope.

(** [try { m } catch (e) { h e }] *)
Definition try_catch {A} (m : M A) (h : Exn -> M A) : M A :=
  fun sc st =>
    match m sc st with
    | (Ret a, st') => (Ret a, st')
    | (Throw e, st') => h e sc st'
    end.

(** The outcome of a promise, observed without rethrowing. *)
Definition settle {A} (m : M A) : M (Res A) :=
  fun sc st => let '(r, st') := m sc st in (Ret r, st').

Definition record (op : Op) (x : option Exn) (st : State) : State :=
  {| trace := trace st ++ [(op, x)];
     console := console st;
     totpCode := totpCode st |}.

(** An awaited call: it resolves to the script's answer or rejects. *)
Definition call (op : Op) : M Answer :=
  fun sc st =>
    let a := sc (length (trace st)) in
    match ans_exn a with
    | Some e => (Throw e, record op (Some e) st)
    | None => (Ret a, record op None st)
    end.

(** A call that cannot reject: the synchronous getter [page.url()] and the
    timer [page.waitForTimeout(ms)]. *)
Definition call_total (op : Op) : M Answer :=
  fun sc st => (Ret (sc (length (trace st))), record op None st).

Definition console_write (lv : Level) (line : string) : M unit :=
  fun _ st =>
    (Ret tt, {| trace := trace st;
                console := console st ++ [(lv, line)];
                totpCode := totpCode st |}).

Definition console_log := console_write LogL.
Definition console_info := console_write InfoL.
Definition console_warn := console_write WarnL.
Definition console_error := console_write ErrorL.

Definition get_totp : M string := fun _ st => (Ret (totpCode st), st).

Definition set_totp (v : string) : M unit :=
  fun _ st =>
    (Ret tt, {| trace := trace st; console := console st; totpCode := v |}).

(** The number of calls issued so far, and the [ans_late] of the [i]-th. *)
Definition calls_so_far : M nat := fun _ st => (Ret (length (trace st)), st).
Definition settles_late (i : nat) : M bool :=
  fun sc st => (Ret (ans_late (sc i)), st).

(** [await Promise.all([p, q])] with [p] started first.  It resolves when both
    do and rejects with the rejection that comes first. *)
Definition promise_all2 {A B} (p : M A) (q : M B) : M (A * B) :=
  rp <- settle p ;;
  i <- calls_so_far ;;
  rq <- settle q ;;
  late <- settles_late i ;;
  match rp, rq with
  | Ret a, Ret b => ret (a, b)
  | Throw e, Ret _ => throw e
  | Ret _, Throw e => throw e
  | Throw e1, Throw e2 => throw (if late : bool then e1 else e2)
  end.

(** [await Promise.race([p.catch(() => null), q.catch(() => null)])]: both
    calls are started, neither can reject, the value is dropped. *)
Definition promise_race_swallowed {A B} (p : M A) (q : M B) : M unit :=
  _ <- settle p ;;
  _ <- settle q ;;
  ret tt.

(** [p.catch(() => {})] *)
Definition swallow {A} (p : M A) : M unit :=
  try_catch (_ <- p ;; ret tt) (fun _ => ret tt).

(** The typed views of the page calls. *)
Definition page_url : M string := a <- call_total PageUrl ;; ret (ans_str a).
Definition waitForTimeout (ms : N) : M unit :=
  _ <- call_total (WaitForTimeout ms) ;; ret tt.
Definition do_ (op : Op) : M unit := _ <- call op ;; ret tt.
Definition goto (url : string) (timeout : option N) : M (option Response) :=
  a <- call (Goto url timeout) ;; ret (ans_resp a).
Definition isVisible (l : Locator) (timeout : option N) : M bool :=
  a <- call (IsVisible l timeout) ;; ret (ans_bool a).
Definition count (l : Locator) : M nat :=
  a <- call (Count l) ;; ret (ans_nat a).
Definition innerText (l : Locator) : M string :=
  a <- call (InnerText l) ;; ret (ans_str a).

(** The [{ success, message }] every flow returns. *)
Record RunResult := mkResult {
  success : bool;
  message : string
}.

(** [new URL(u).host] and [new URL(u).hostname]; [None] when the constructor
    throws.  The URL parser is the platform's, not the repository's. *)
Class UrlApi := {
  url_host : string -> option string;
  url_hostname : string -> option string
}.

(** ** Zillow *)

Module Zillow.

Record Inputs := mkInputs {
  email : jsval;
  currentPassword : jsval;
  newPassword : jsval;
  startUrl : string;
  profileUrl : string;
  logoutUrl : string
}.

Definition sessionId (env : ProcessEnv) : string :=
  or_default (env !! "ANCHOR_SESSION_ID") "".

Definition INPUTS (env : ProcessEnv) : Inputs :=
  {| email := env !! "ANCHOR_EMAIL";
     currentPassword := env !! "ANCHOR_CURRENT_PASSWORD";
     newPassword := env !! "ANCHOR_NEW_PASSWORD";
     startUrl := or_default (env !! "ANCHOR_START_URL")
       "https://www.zillow.com/auth/user/login?entry_point=auth_ui_service_error_page&prompt=login";
     profileUrl := or_default (env !! "ANCHOR_PROFILE_URL")
       "https://www.zillow.com/myzillow/profile/";
     logoutUrl := or_default (env !! "ANCHOR_LOGOUT_URL")
       "https://www.zillow.com/Logout.htm" |}.

Definition getAnchorBrowser (sid : string) : M unit :=
  if negb (String.eqb sid "") then do_ (BrowserConnect sid)
  else do_ BrowserCreate.

Definition maskSecret (value : jsval) : string :=
  if negb (truthy value) then ""
  else
    let len := String.length (the value) in
    repeat_star (Nat.max 4 (Nat.min len 12)).

Section WithUrl.
Context {U : UrlApi}.

Definition safeGoto (url label : string) (timeout : N) : M bool :=
  console_log ("[NAV] " +:+ label +:+ ": " +:+ url) ;;
  try_catch
    (resp <- goto url (Some timeout) ;;
     match resp with
     | None =>
         console_log ("[NAV] " +:+ label
                      +:+ ": no response object returned (may still be fine).") ;;
         ret true
     | Some r =>
         (if negb (resp_ok r)
          then console_error ("[NAV] " +:+ label +:+ ": HTTP "
                              +:+ string_of_N (resp_status r) +:+ " "
                              +:+ resp_statusText r)
          else ret tt) ;;
         ret true
     end)
    (fun err =>
       current <- page_url ;;
       let failed :=
         console_error ("[NAV] " +:+ label +:+ ": failed to navigate -> "
                        +:+ message_or_self err) ;;
         ret false in
       match url_host url with
       | None => failed
       | Some targetHost =>
           match url_host current with
           | None => failed
           | Some currentHost =>
               if negb (String.eqb targetHost "")
                  && negb (String.eqb currentHost "")
                  && String.eqb targetHost currentHost
               then
                 console_log ("[NAV] " +:+ label
                              +:+ ": load timeout/warning but on expected host "
                              +:+ currentHost +:+ ". Continuing.") ;;
                 ret true
               else failed
           end
       end).

Definition expectVisible (locator : Locator) (desc : string) (timeout : N)
  : M bool :=
  try_catch
    (do_ (WaitFor locator Visible (Some timeout)) ;; ret true)
    (fun err =>
       console_error ("[WAIT] " +:+ desc +:+ ": not visible within "
                      +:+ string_of_N timeout +:+ "ms -> "
                      +:+ message_or_self err) ;;
       ret false).

Definition failure (msg : string) : M RunResult :=
  ret {| success := false; message := msg |}.

Definition emailInput := First (Css ("input[data-testid=" +:+ q "identifier-input" +:+ "]")).
Definition pwdInput :=
  First (Css ("#password[data-testid=" +:+ q "password-input" +:+ "] input[type=" +:+ q "password" +:+ "]")).
Definition changePwdBtn := First (Css ("button[aria-label=" +:+ q "Change password" +:+ "]")).
Definition currentPwdInput := First (Css "#current-password-input").
Definition newPwdInput := First (Css "#new-password-input").
Definition confirmPwdInput := First (Css "#confirm-password-input").
Definition dialogForm := First (FilterHas (Css "form") currentPwdInput).
Definition applyBtn := First (Within dialogForm ("button[type=" +:+ q "submit" +:+ "]")).
Definition passwordDialog :=
  First (FilterHas (Css ("section[role=" +:+ q "dialog" +:+ "]")) currentPwdInput).

(** Step 7 and the final result: what runs once the Apply click and the
    post-submit race are over. *)
Definition logout_and_finish (I : Inputs) : M RunResult :=
  ok3 <- safeGoto (logoutUrl I) "Logout" 30000 ;;
  (if negb ok3
   then console_error
          "Logout navigation experienced an issue, but continuing to finalize."
   else ret tt) ;;
  let outputMessage :=
    "Password change flow executed and logout attempted successfully." in
  console_info outputMessage ;;
  ret {| success := true; message := outputMessage |}.

(** The body of the [try] block. *)
Definition steps (I : Inputs) : M RunResult :=
  ok1 <- safeGoto (startUrl I) "Open login page" 30000 ;;
  if negb ok1 then failure "Failed to open login page" else
  emailReady <- expectVisible emailInput
                  ("Email input [data-testid=" +:+ q "identifier-input" +:+ "]") 15000 ;;
  if negb emailReady then failure "Email input not available" else
  console_log ("[ACTION] Typing email (" +:+ maskSecret (email I)
               +:+ ") and submitting") ;;
  do_ (Fill emailInput (the (email I)) None) ;;
  do_ (Press emailInput "Enter") ;;
  pwdReady <- expectVisible pwdInput "Password input #password" 15000 ;;
  if negb pwdReady then failure "Password input not available" else
  console_log ("[ACTION] Typing current password ("
               +:+ maskSecret (currentPassword I) +:+ ") and submitting") ;;
  do_ (Fill pwdInput (the (currentPassword I)) None) ;;
  do_ (Press pwdInput "Enter") ;;
  ok2 <- safeGoto (profileUrl I) "Open My Profile" 30000 ;;
  if negb ok2 then failure "Failed to open My Profile page" else
  changeBtnReady <- expectVisible changePwdBtn
      ("Change password button [aria-label=" +:+ q "Change password" +:+ "]") 15000 ;;
  if negb changeBtnReady then failure "Change password button not available" else
  console_log "[ACTION] Opening Change password dialog" ;;
  do_ (Click changePwdBtn None None) ;;
  r1 <- expectVisible currentPwdInput
          "Current password input #current-password-input" 15000 ;;
  r2 <- (if r1 : bool
         then expectVisible newPwdInput
                "New password input #new-password-input" 15000
         else ret false) ;;
  dlgInputsReady <- (if r2 : bool
                     then expectVisible confirmPwdInput
                            "Confirm password input #confirm-password-input" 15000
                     else ret false) ;;
  if negb dlgInputsReady
  then failure "One or more password dialog inputs are not available" else
  console_log ("[ACTION] Filling current (" +:+ maskSecret (currentPassword I)
               +:+ "), new (" +:+ maskSecret (newPassword I)
               +:+ "), and confirm new password") ;;
  do_ (Fill currentPwdInput (the (currentPassword I)) None) ;;
  do_ (Fill newPwdInput (the (newPassword I)) None) ;;
  do_ (Fill confirmPwdInput (the (newPassword I)) None) ;;
  applyReady <- expectVisible applyBtn
                  "Apply button (type=submit) inside dialog" 15000 ;;
  if negb applyReady then failure "Apply button not available" else
  console_log "[ACTION] Submitting password change" ;;
  do_ (Click applyBtn None None) ;;
  promise_race_swallowed
    (swallow (call (WaitForURL "www.zillow.com" (Some 15000%N))))
    (swallow (call (WaitFor passwordDialog Detached (Some 15000%N)))) ;;
  logout_and_finish I.

Definition missing_names (I : Inputs) : list string :=
  (if negb (truthy (email I)) then ["ANCHOR_EMAIL"] else [])
  ++ (if negb (truthy (currentPassword I)) then ["ANCHOR_CURRENT_PASSWORD"] else [])
  ++ (if negb (truthy (newPassword I)) then ["ANCHOR_NEW_PASSWORD"] else []).

Definition on_error (err : Exn) : M RunResult :=
  let msg := "Workflow error: " +:+ message_or_self err in
  console_error msg ;;
  ret {| success := false; message := msg |}.

Definition zillowChangePasswordFlow (env : ProcessEnv) : M RunResult :=
  let I := INPUTS env in
  getAnchorBrowser (sessionId env) ;;
  do_ FirstPage ;;
  if negb (truthy (email I)) || negb (truthy (currentPassword I))
     || negb (truthy (newPassword I))
  then
    let msg := "Missing required inputs: " +:+ join_comma (missing_names I) in
    console_error msg ;;
    ret {| success := false; message := msg |}
  else try_catch (steps I) on_error.

End WithUrl.
End Zillow.

(** ** PCPartPicker *)

Module PCPartPicker.

Record Inputs := mkInputs {
  loginUrl : string;
  changePasswordUrl : string;
  username : jsval;
  oldPassword : jsval;
  newPassword : jsval
}.

Definition sessionId (env : ProcessEnv) : string :=
  or_default (env !! "ANCHOR_SESSION_ID") "".

Definition INPUTS (env : ProcessEnv) : Inputs :=
  {| loginUrl := or_default (env !! "ANCHOR_LOGIN_URL")
       "https://pcpartpicker.com/accounts/login/";
     changePasswordUrl := or_default (env !! "ANCHOR_CHANGE_PASSWORD_URL")
       "https://pcpartpicker.com/accounts/password/change/";
     username := or_else (or_else (env !! "ANCHOR_USERNAME")
                                  (env !! "ANCHOR_LOGIN"))
                         (env !! "ANCHOR_EMAIL");
     oldPassword := or_else (env !! "ANCHOR_OLD_PASSWORD")
                            (env !! "ANCHOR_PASSWORD");
     newPassword := env !! "ANCHOR_NEW_PASSWORD" |}.

Definition getAnchorBrowser (sid : string) : M unit :=
  if negb (String.eqb sid "") then do_ (BrowserConnect sid)
  else do_ BrowserCreate.

(** Navigation that tolerates a slow or failed load: whatever [page.goto]
    throws is logged and dropped. *)
Definition safeGoto (url : string) (waitMs : N) : M unit :=
  console_log ("[nav] goto " +:+ url) ;;
  try_catch
    (do_ (Goto url (Some waitMs)))
    (fun err =>
       console_error ("[warn] page.goto error: " +:+ exn_toString err) ;;
       try_catch
         (do_ (WaitForLoadState OnDomContentLoaded (Some 5000%N)))
         (fun _ => ret tt)).

Definition waitForVisible (selector : string) (timeout : N) : M unit :=
  console_log ("[wait] visible " +:+ selector) ;;
  do_ (WaitFor (First (Css selector)) Visible (Some timeout)).

Definition listMissingInputs (I : Inputs) : list string :=
  (if negb (truthy (username I))
   then ["ANCHOR_USERNAME (or ANCHOR_LOGIN / ANCHOR_EMAIL)"] else [])
  ++ (if negb (truthy (oldPassword I))
      then ["ANCHOR_PASSWORD (or ANCHOR_OLD_PASSWORD)"] else [])
  ++ (if negb (truthy (newPassword I)) then ["ANCHOR_NEW_PASSWORD"] else []).

Definition string_of_bool (b : bool) : string := if b then "true" else "false".

Definition loginFormSel := ("form[action=" +:+ q "/accounts/login/" +:+ "]").
Definition userSel := ("#id_username, input[name=" +:+ q "username" +:+ "], input#id_login").
Definition passSel := ("#id_password, input[name=" +:+ q "password" +:+ "]").
Definition submitSel :=
  ("#form_submit, form[action=" +:+ q "/accounts/login/" +:+ "] button[type=" +:+ q "submit" +:+ "], form[action=" +:+ q "/accounts/login/" +:+ "] input[type=" +:+ q "submit" +:+ "]").
Definition oldPassSel := ("#id_old_password, input[name=" +:+ q "old_password" +:+ "]").
Definition newPass1Sel :=
  ("#id_new_password1, input[name=" +:+ q "new_password1" +:+ "], input[name=" +:+ q "new_password" +:+ "]").
Definition newPass2Sel :=
  ("#id_new_password2, input[name=" +:+ q "new_password2" +:+ "], input[name=" +:+ q "new_password_confirm" +:+ "]").
Definition changeBtnSel :=
  ("input.button[type=" +:+ q "submit" +:+ "][value=" +:+ q "Change Password" +:+ "], form[action*=" +:+ q "/accounts/password/change/" +:+ "] [type=" +:+ q "submit" +:+ "]").

(** [loc.isVisible().catch(() => false)] *)
Definition isVisible_or_false (l : Locator) : M bool :=
  try_catch (isVisible l None) (fun _ => ret false).

(** Step 3: the success check on the page the submit ended on. *)
Definition verify : M RunResult :=
  url <- page_url ;;
  let successUrl := includes url "/accounts/password/change/done/" in
  successTextVisible <-
    isVisible_or_false (First (Css "text=Your password has been changed.")) ;;
  if successUrl || successTextVisible then
    let msg := "Password changed successfully." in
    console_info msg ;;
    ret {| success := true; message := msg |}
  else
    let msg :=
      "Password change may have failed: success URL or confirmation text not detected." in
    console_error msg ;;
    ret {| success := false; message := msg |}.

(** Step 2, entered once the login check has passed. *)
Definition change_password (I : Inputs) : M unit :=
  safeGoto (changePasswordUrl I) 25000 ;;
  waitForVisible oldPassSel 20000 ;;
  waitForVisible newPass1Sel 20000 ;;
  waitForVisible newPass2Sel 20000 ;;
  console_log "[action] fill old password" ;;
  do_ (Fill (First (Css oldPassSel)) (or_default (oldPassword I) "") None) ;;
  console_log "[action] fill new password" ;;
  do_ (Fill (First (Css newPass1Sel)) (or_default (newPassword I) "") None) ;;
  console_log "[action] confirm new password" ;;
  do_ (Fill (First (Css newPass2Sel)) (or_default (newPassword I) "") None) ;;
  console_log "[action] submit change password" ;;
  _ <- promise_all2
    (try_catch
       (do_ (WaitForLoadState OnLoad (Some 25000%N)))
       (fun err =>
          console_error ("[warn] load wait after change submit: "
                         +:+ exn_toString err)))
    (do_ (Click (First (Css changeBtnSel)) None None)) ;;
  ret tt.

(** Step 1, up to the two visibility probes that follow the login submit. *)
Definition log_in (I : Inputs) : M (bool * bool) :=
  safeGoto (loginUrl I) 25000 ;;
  waitForVisible loginFormSel 20000 ;;
  waitForVisible userSel 20000 ;;
  waitForVisible passSel 20000 ;;
  console_log "[action] fill username" ;;
  do_ (Fill (First (Css userSel)) (or_default (username I) "") None) ;;
  console_log "[action] fill password" ;;
  do_ (Fill (First (Css passSel)) (or_default (oldPassword I) "") None) ;;
  console_log "[action] submit login" ;;
  _ <- promise_all2
    (try_catch
       (do_ (WaitForLoadState OnLoad (Some 25000%N)))
       (fun err =>
          console_error ("[warn] load wait after login: " +:+ exn_toString err)))
    (do_ (Click (First (Css submitSel)) None None)) ;;
  loggedIn <- isVisible_or_false (First (Css ("a[href=" +:+ q "/accounts/logout/" +:+ "]"))) ;;
  stillOnLogin <- isVisible_or_false (First (Css loginFormSel)) ;;
  url <- page_url ;;
  console_log ("[state] After login: url=" +:+ url
               +:+ " loggedIn=" +:+ string_of_bool loggedIn
               +:+ " stillOnLogin=" +:+ string_of_bool stillOnLogin) ;;
  ret (loggedIn, stillOnLogin).

(** The body of the [try] block. *)
Definition steps (I : Inputs) : M RunResult :=
  probes <- log_in I ;;
  let '(loggedIn, stillOnLogin) := probes in
  if negb loggedIn && stillOnLogin then
    let msg :=
      "Login appears to have failed: login form still visible after submit." in
    console_error msg ;;
    ret {| success := false; message := msg |}
  else
    change_password I ;;
    verify.

Definition on_error (error : Exn) : M RunResult :=
  let msg := "Unhandled error in flow: " +:+ exn_toString error in
  console_error msg ;;
  ret {| success := false; message := msg |}.

Definition pcppChangePasswordTask (env : ProcessEnv) : M RunResult :=
  let I := INPUTS env in
  getAnchorBrowser (sessionId env) ;;
  do_ FirstPage ;;
  let missing := listMissingInputs I in
  if negb (Nat.eqb (List.length missing) 0) then
    let msg := "Missing required inputs: " +:+ join_comma missing in
    console_error msg ;;
    ret {| success := false; message := msg |}
  else try_catch (steps I) on_error.

End PCPartPicker.

(** ** weather.com *)

Module Weather.

Record Inputs := mkInputs {
  baseUrl : string;
  username : jsval;
  password : jsval;
  newPassword : jsval;
  currentPassword : string
}.

Definition sessionId (env : ProcessEnv) : string :=
  or_default (env !! "ANCHOR_SESSION_ID") "".

Definition INPUTS (env : ProcessEnv) : Inputs :=
  {| baseUrl := or_default (env !! "ANCHOR_WEATHER_BASE_URL") "https://weather.com";
     username := or_else (env !! "ANCHOR_WEATHER_EMAIL") (env !! "ANCHOR_USERNAME");
     password := or_else (env !! "ANCHOR_WEATHER_PASSWORD") (env !! "ANCHOR_PASSWORD");
     newPassword := or_else (env !! "ANCHOR_WEATHER_NEW_PASSWORD")
                            (env !! "ANCHOR_NEW_PASSWORD");
     currentPassword :=
       or_default (or_else (env !! "ANCHOR_WEATHER_CURRENT_PASSWORD")
                           (env !! "ANCHOR_CURRENT_PASSWORD")) "" |}.

Definition getAnchorBrowser (sid : string) : M unit :=
  if negb (String.eqb sid "") then do_ (BrowserConnect sid)
  else do_ BrowserCreate.

(** What [new URL(url)] throws on a string it cannot parse. *)
Definition invalid_url : Exn := ErrorObj "TypeError" "Invalid URL".

Section WithUrl.
Context {U : UrlApi}.

Definition gotoWithLoad (url : string) (timeout : N) : M unit :=
  try_catch
    (do_ (Goto url (Some timeout)))
    (fun err =>
       atUrl <- page_url ;;
       match url_hostname url with
       | None => throw invalid_url
       | Some hostname =>
           if includes atUrl hostname
           then console_warn ("[nav] Load timeout, but currently at " +:+ atUrl
                              +:+ ". Continuing.")
           else throw err
       end).

Definition waitVisible (selector : string) (timeout : N) : M bool :=
  try_catch
    (do_ (WaitFor (First (Css selector)) Visible (Some timeout)) ;; ret true)
    (fun e =>
       console_error ("[waitVisible] Timed out waiting for selector: "
                      +:+ selector) ;;
       throw e).

(** The [for] loop of [clickWithRetry], entered at iteration [i] with
    [remaining] iterations to go. *)
Fixpoint clickWithRetry_from (selector : string) (remaining i : nat)
    (lastErr : option Exn) : M unit :=
  match remaining with
  | O =>
      console_error ("[clickWithRetry] All attempts failed for " +:+ selector) ;;
      throw (default (Thrown "undefined") lastErr)
  | S remaining' =>
      r <- settle (do_ (Click (First (Css selector)) None (Some 15000%N))) ;;
      match r with
      | Ret _ => ret tt
      | Throw e =>
          console_warn ("[clickWithRetry] Attempt " +:+ string_of_nat (i + 1)
                        +:+ " failed for " +:+ selector +:+ ". Retrying...") ;;
          waitForTimeout 750 ;;
          clickWithRetry_from selector remaining' (S i) (Some e)
      end
  end.

Definition clickWithRetry (selector : string) (attempts : nat) : M unit :=
  clickWithRetry_from selector attempts 0 None.

Definition fillInput (selector value : string) : M unit :=
  _ <- waitVisible selector 20000 ;;
  do_ (Fill (First (Css selector)) "" None) ;;
  do_ (Fill (First (Css selector)) value (Some 15000%N)).

Definition avatarSel := "span.ProfileAvatar--initial--dkm7v".

Definition isLoggedIn : M bool :=
  try_catch (isVisible (First (Css avatarSel)) (Some 3000%N))
            (fun _ => ret false).

Definition signInSel :=
  ("button.Button--primary--I3yI4.MemberLoginForm--submitButton--Bz-ob[type=" +:+ q "submit" +:+ "]").
Definition changePasswordSel :=
  "button.MemberProfileForm--changePasswordButton--EzOT4".
Definition saveSel :=
  ("button.Button--primary--I3yI4.MemberChangePasswordForm--submitButton--9cU6R[type=" +:+ q "submit" +:+ "]").

(** Step B, when the avatar is not there yet. *)
Definition log_in (base email loginPassword : string) : M unit :=
  console_log "[Step B] Not logged in. Navigating to login page." ;;
  gotoWithLoad (base +:+ "/login") 45000 ;;
  fillInput "#loginEmail" email ;;
  fillInput "#loginPassword" loginPassword ;;
  console_log "[Step B] Submit login form" ;;
  clickWithRetry signInSel 2 ;;
  try_catch
    (do_ (WaitForLoadState OnLoad (Some 30000%N)))
    (fun e =>
       atUrl <- page_url ;;
       if includes atUrl "weather.com"
       then console_warn ("[login] Load wait timed out but at " +:+ atUrl
                          +:+ ". Proceeding.")
       else throw e) ;;
  console_log "[Step B] Verify login by checking profile avatar" ;;
  _ <- waitVisible avatarSel 30000 ;;
  ret tt.

(** Step C: through the avatar, or by direct navigation when that fails. *)
Definition open_settings (base : string) : M unit :=
  console_log "[Step C] Navigate to Member Settings" ;;
  navigatedToSettings <-
    try_catch
      (clickWithRetry avatarSel 2 ;;
       do_ (WaitForLoadState OnLoad (Some 15000%N)) ;;
       url <- page_url ;;
       ret (includes url "/member/settings"))
      (fun _ => ret false) ;;
  if negb navigatedToSettings then
    console_log "[Step C] Fallback direct navigation to settings" ;;
    gotoWithLoad (base +:+ "/member/settings") 45000
  else ret tt.

(** Step G: the dialog closing is the success signal. *)
Definition verify : M RunResult :=
  console_log "[Step G] Verify password change by waiting for dialog to close" ;;
  ok <-
    try_catch
      (do_ (WaitFor (Css "#changePasswordCurrentPassword") Detached
                    (Some 20000%N)) ;;
       ret true)
      (fun _ =>
         try_catch
           (do_ (WaitFor (Css "#changePasswordCurrentPassword") Hidden
                         (Some 8000%N)) ;;
            ret true)
           (fun _ => ret false)) ;;
  if negb ok then
    errorText <-
      try_catch
        (innerText (First (Css ("[class*=" +:+ q "Error" +:+ "], [data-error], .FormError"))))
        (fun _ => ret "Unknown error") ;;
    let msg := "Password change may have failed. Dialog still present. Error hint: "
               +:+ errorText in
    console_error msg ;;
    ret {| success := false; message := msg |}
  else
    let outputMessage := "Password changed successfully on weather.com" in
    console_info outputMessage ;;
    ret {| success := true; message := outputMessage |}.

(** The body of the [try] block. *)
Definition steps (base : string) (email loginPassword currentPassword newPassword : jsval)
  : M RunResult :=
  console_log "[Step A] Navigate to base URL" ;;
  gotoWithLoad (base +:+ "/?Goto=Redirected") 45000 ;;
  loggedIn <- isLoggedIn ;;
  (if negb loggedIn
   then log_in base (the email) (the loginPassword)
   else console_log "[Step B] Already logged in (avatar detected).") ;;
  open_settings base ;;
  console_log "[Step D] Open Change Password dialog" ;;
  _ <- waitVisible changePasswordSel 20000 ;;
  clickWithRetry changePasswordSel 2 ;;
  console_log "[Step E] Fill Change Password form" ;;
  fillInput "#changePasswordCurrentPassword" (the currentPassword) ;;
  fillInput "#changePasswordNewPassword" (the newPassword) ;;
  fillInput "#changePasswordConfirmPassword" (the newPassword) ;;
  console_log "[Step F] Submit Change Password form" ;;
  clickWithRetry saveSel 2 ;;
  verify.

Definition on_error (error : Exn) : M RunResult :=
  let msg := "Flow failed: " +:+ message_or_self error in
  console_error msg ;;
  ret {| success := false; message := msg |}.

Definition WeatherComChangePassword (env : ProcessEnv) : M RunResult :=
  let I := INPUTS env in
  getAnchorBrowser (sessionId env) ;;
  do_ FirstPage ;;
  let base := strip_trailing_slash (baseUrl I) in
  let email := username I in
  let loginPassword := password I in
  let currentPassword := or_else (Some (currentPassword I)) loginPassword in
  let newPassword := newPassword I in
  if negb (truthy email) || negb (truthy loginPassword)
     || negb (truthy newPassword)
  then
    let msg := "Missing required inputs: ANCHOR_WEATHER_EMAIL/ANCHOR_USERNAME, ANCHOR_WEATHER_PASSWORD/ANCHOR_PASSWORD, ANCHOR_WEATHER_NEW_PASSWORD/ANCHOR_NEW_PASSWORD" in
    console_error msg ;;
    ret {| success := false; message := msg |}
  else try_catch (steps base email loginPassword currentPassword newPassword)
                 on_error.

End WithUrl.
End Weather.

(** ** Fandom *)

Module Fandom.

Record Inputs := mkInputs {
  baseUrl : string;
  username : jsval;
  password : jsval;
  newPassword : jsval
}.

Definition sessionId (env : ProcessEnv) : string :=
  or_default (env !! "ANCHOR_SESSION_ID") "".

Definition INPUTS (env : ProcessEnv) : Inputs :=
  {| baseUrl := or_default (env !! "ANCHOR_FANDOM_BASE_URL")
                           "https://community.fandom.com";
     username := env !! "ANCHOR_FANDOM_USERNAME";
     password := env !! "ANCHOR_FANDOM_PASSWORD";
     newPassword := env !! "ANCHOR_FANDOM_NEW_PASSWORD" |}.

Definition getAnchorBrowser (sid : string) : M unit :=
  if negb (String.eqb sid "") then do_ (BrowserConnect sid)
  else do_ BrowserCreate.

Definition signinUsername :=
  ("input#identifier.wds-input__field[data-test=" +:+ q "signin-username-field" +:+ "]").
Definition signinPassword :=
  ("input#password.wds-input__field[data-test=" +:+ q "signin-password-field" +:+ "]").
Definition signinSubmit :=
  ("button#method.wds-button[data-test=" +:+ q "signin-password-submit" +:+ "]").
Definition settingsNewPassword :=
  ("input#password.wds-input__field[data-test=" +:+ q "settings-password-field" +:+ "]").
Definition logoutConfirm :=
  ("input.wds-button[type=" +:+ q "submit" +:+ "][value=" +:+ q "Confirm" +:+ "]").

Record Urls := mkUrls {
  loginUrl : string;
  changePasswordUrl : string;
  logoutUrl : string
}.

Definition buildUrls (base : string) : Urls :=
  {| loginUrl := strip_trailing_slash base +:+ "/wiki/Special:UserLogin";
     changePasswordUrl :=
       strip_trailing_slash base +:+ "/wiki/Special:ChangePassword";
     logoutUrl := strip_trailing_slash base +:+ "/wiki/Special:UserLogout" |}.

Definition safeClick (selector description : string) : M unit :=
  let locator := First (Css selector) in
  do_ (WaitFor locator Visible None) ;;
  console_log ("Click: " +:+ description +:+ " -> " +:+ selector) ;;
  _ <- promise_all2
         (swallow (call (WaitForNavigation None)))
         (do_ (Click locator (Some 50%N) None)) ;;
  ret tt.

Definition signIn (username password : string) : M unit :=
  do_ (WaitForSelector signinUsername Visible None) ;;
  do_ (Click (First (Css signinUsername)) None None) ;;
  do_ (Fill (First (Css signinUsername)) username (Some 15000%N)) ;;
  do_ (Click (First (Css signinPassword)) None None) ;;
  do_ (Fill (First (Css signinPassword)) password None) ;;
  console_log "Submitting sign-in form" ;;
  _ <- promise_all2
         (do_ (WaitForNavigation None))
         (do_ (Click (First (Css signinSubmit)) None None)) ;;
  url <- page_url ;;
  console_log ("Sign-in attempted. Current URL: " +:+ url).

(** Steps 1 to 4: log in with the current password, open the settings page,
    type the new password and submit it with Enter. *)
Definition change_password (urls : Urls) (username password newPassword : string)
  : M unit :=
  console_log ("Navigating to login page: " +:+ loginUrl urls) ;;
  do_ (Goto (loginUrl urls) None) ;;
  console_log "Waiting for Fandom Auth sign-in form" ;;
  do_ (WaitForSelector signinUsername Visible None) ;;
  console_log "Filling credentials and logging in (current password)" ;;
  signIn username password ;;
  url <- page_url ;;
  (if negb (includes url "community.fandom.com")
   then console_log
          "Post-login URL is not on community.fandom.com; proceeding anyway as redirects may follow."
   else ret tt) ;;
  console_log ("Navigating to change password page: " +:+ changePasswordUrl urls) ;;
  do_ (Goto (changePasswordUrl urls) None) ;;
  console_log "Waiting for settings new password field on Auth Settings page" ;;
  do_ (WaitForSelector settingsNewPassword Visible None) ;;
  console_log "Entering new password" ;;
  let newPwdField := First (Css settingsNewPassword) in
  do_ (Click newPwdField None None) ;;
  do_ (Fill newPwdField newPassword None) ;;
  console_log "Submitting new password (press Enter)" ;;
  _ <- promise_all2
         (swallow (call (WaitForNavigation None)))
         (do_ (Press newPwdField "Enter")) ;;
  ret tt.

(** The probe of step 5: does the sign-in form come back within 6 s? *)
Definition reauth_probe : Op := WaitForSelector signinUsername Visible (Some 6000%N).

(** Step 5: when the sign-in form comes back, sign in with the new password.
    Anything thrown in here is dropped. *)
Definition reauth (username newPassword : string) : M unit :=
  try_catch
    (do_ reauth_probe ;;
     console_log
       "Re-authentication detected after password change. Signing in with NEW password." ;;
     signIn username newPassword)
    (fun _ =>
       console_log
         "No re-authentication form detected after password change. Proceeding to logout.").

(** Step 6 and the result. *)
Definition logout_and_finish (urls : Urls) : M RunResult :=
  console_log ("Navigating to logout page: " +:+ logoutUrl urls) ;;
  do_ (Goto (logoutUrl urls) None) ;;
  console_log "Confirming logout" ;;
  safeClick logoutConfirm "Logout Confirm" ;;
  finalUrl <- page_url ;;
  let outputMessage :=
    "Password changed and logout completed. Final URL: " +:+ finalUrl in
  console_info outputMessage ;;
  ret {| success := true; message := outputMessage |}.

(** The body of the [try] block. *)
Definition steps (urls : Urls) (username password newPassword : string)
  : M RunResult :=
  change_password urls username password newPassword ;;
  reauth username newPassword ;;
  logout_and_finish urls.

Definition on_error (error : Exn) : M RunResult :=
  console_error ("Workflow failed: " +:+ message_or_self error) ;;
  ret {| success := false;
         message := "Workflow failed: " +:+ message_or_self error |}.

Definition FandomChangePasswordFlow (env : ProcessEnv) : M RunResult :=
  let I := INPUTS env in
  getAnchorBrowser (sessionId env) ;;
  do_ FirstPage ;;
  let urls := buildUrls (baseUrl I) in
  if negb (truthy (username I)) || negb (truthy (password I))
     || negb (truthy (newPassword I))
  then
    let msg := "Missing required inputs: ANCHOR_FANDOM_USERNAME, ANCHOR_FANDOM_PASSWORD, ANCHOR_FANDOM_NEW_PASSWORD" in
    console_error msg ;;
    ret {| success := false; message := msg |}
  else try_catch (steps urls (the (username I)) (the (password I))
                        (the (newPassword I)))
                 on_error.

End Fandom.

(** ** Wikipedia *)

Module Wikipedia.

Record Inputs := mkInputs {
  username : string;
  password : string;
  newPassword : string;
  baseUrl : string
}.

Definition sessionId (env : ProcessEnv) : string :=
  or_default (env !! "ANCHOR_SESSION_ID") "".

Definition INPUTS (env : ProcessEnv) : Inputs :=
  {| username := or_default (env !! "ANCHOR_WIKI_USERNAME") "";
     password := or_default (env !! "ANCHOR_WIKI_PASSWORD") "";
     newPassword := or_default (env !! "ANCHOR_WIKI_NEW_PASSWORD") "";
     baseUrl := or_default (env !! "ANCHOR_WIKI_BASE_URL")
                           "https://en.wikipedia.org" |}.

(** [INPUTS.totpCode] as the module is loaded; the flow may overwrite it. *)
Definition initial_totpCode (env : ProcessEnv) : string :=
  or_default (env !! "ANCHOR_WIKI_TOTP_CODE") "".

Definition getAnchorBrowser (sid : string) : M unit :=
  if negb (String.eqb sid "") then do_ (BrowserConnect sid)
  else do_ BrowserCreate.

Definition safeWaitForLoad (label : string) (timeout : N) : M unit :=
  try_catch
    (do_ (WaitForLoadState OnLoad (Some timeout)) ;;
     console_log ("[wait] load achieved for: " +:+ label))
    (fun _ =>
       console_log ("[wait-warning] load timeout for " +:+ label
                    +:+ "; proceeding if DOM state is sufficient.")).

(** Here a failed [page.goto] is not caught: it leaves the helper. *)
Definition safeGoto (url label : string) (timeout : N) : M unit :=
  console_log ("[nav] goto " +:+ label +:+ ": " +:+ url) ;;
  do_ (Goto url (Some timeout)) ;;
  safeWaitForLoad label 45000.

Definition waitVisible (locator : Locator) (label : string) (timeout : N)
  : M Locator :=
  console_log ("[wait] waiting for visible " +:+ label) ;;
  do_ (WaitFor (First locator) Visible (Some timeout)) ;;
  ret (First locator).

Definition ensureLoggedIn : M bool :=
  n <- count (First (Css "#pt-userpage")) ;;
  if negb (Nat.eqb n 0) then
    console_log "[auth] Already logged in (found #pt-userpage)." ;;
    ret true
  else ret false.

Definition new_Error (msg : string) : Exn := ErrorObj "Error" msg.

Definition otpFallbackSel :=
  ("input[id*=" +:+ q "oath" +:+ "], input[name*=" +:+ q "oath" +:+ "], input[id*=" +:+ q "otp" +:+ "], input[name*=" +:+ q "otp" +:+ "]").

Definition handleTwoFactorIfPresent : M unit :=
  let twoFAHeading :=
    First (ByRole "heading" "two-factor|oath|authentication code") in
  let twoFAInput :=
    First (ByLabel "one-time|authentication code|verification code|2-step") in
  n1 <- count twoFAHeading ;;
  twoFAFound <-
    (if Nat.ltb 0 n1 then ret true else
     n2 <- count twoFAInput ;;
     if Nat.ltb 0 n2 then ret true else
     n3 <- count (First (Css otpFallbackSel)) ;;
     ret (Nat.ltb 0 n3)) ;;
  if twoFAFound : bool then
    console_log "[auth] Two-factor authentication detected." ;;
    stored <- get_totp ;;
    (if String.eqb stored "" then
       console_log "[auth] Waiting for OTP from Anchor events API" ;;
       otpEvent <- call (EventsWaitFor "wikipedia-rotate-email-totp") ;;
       let otpData := ans_otp otpEvent in
       if negb (truthy otpData)
       then throw (new_Error "No OTP data received from event.")
       else set_totp (the otpData)
     else ret tt) ;;
    (* [twoFAInput.count] is the method itself, hence always truthy *)
    let otp := twoFAInput in
    _ <- waitVisible otp "2FA code input" 15000 ;;
    do_ (Fill otp "" None) ;;
    code <- get_totp ;;
    do_ (TypeText otp code 20) ;;
    let submitBtn := First (ByRole "button" "continue|verify|submit|log in|proceed") in
    n <- count submitBtn ;;
    (if Nat.ltb 0 n then do_ (Click submitBtn None None)
     else do_ (Press otp "Enter")) ;;
    safeWaitForLoad "post-2FA submission" 45000
  else ret tt.

Definition login (I : Inputs) : M unit :=
  already <- ensureLoggedIn ;;
  if already : bool then ret tt else
  let loginUrl := baseUrl I +:+ "/w/index.php?title=Special:UserLogin" in
  safeGoto loginUrl "Login page" 45000 ;;
  already <- ensureLoggedIn ;;
  if already : bool then ret tt else
  n <- count (First (Css "#wpName1")) ;;
  let userInput := if Nat.eqb n 0 then ByLabel "username|user name"
                   else Css "#wpName1" in
  user <- waitVisible userInput "username input" 15000 ;;
  do_ (Click user None None) ;;
  do_ (Fill user "" None) ;;
  do_ (TypeText user (username I) 15) ;;
  n <- count (First (Css "#wpPassword1")) ;;
  let passInput := if Nat.eqb n 0 then ByLabel "password"
                   else Css "#wpPassword1" in
  pass <- waitVisible passInput "password input" 15000 ;;
  do_ (Click pass None None) ;;
  do_ (Fill pass "" None) ;;
  do_ (TypeText pass (password I) 15) ;;
  let submit := First (Css ("#wpLoginAttempt, [name=" +:+ q "wploginattempt" +:+ "]")) in
  n <- count submit ;;
  (if Nat.ltb 0 n then do_ (Click submit None None)
   else do_ (Press pass "Enter")) ;;
  safeWaitForLoad "post-login" 45000 ;;
  handleTwoFactorIfPresent ;;
  confirmed <- ensureLoggedIn ;;
  if negb confirmed
  then throw (new_Error "Login unsuccessful: could not confirm logged-in state.")
  else ret tt.

Definition passwordFormPath :=
  "Special:ChangeCredentials/MediaWiki%5CAuth%5CPasswordAuthenticationRequest".

Definition navigateToChangePassword (I : Inputs) : M unit :=
  let directPasswordForm := baseUrl I +:+ "/wiki/" +:+ passwordFormPath in
  safeGoto directPasswordForm "Password change form" 45000 ;;
  url <- page_url ;;
  if negb (includes url passwordFormPath) then
    let overviewUrl := baseUrl I +:+ "/wiki/Special:ChangeCredentials" in
    safeGoto overviewUrl "Change Credentials overview" 45000 ;;
    let pwdEntry := Css ("dt:has-text(" +:+ q "Password-based authentication" +:+ ")") in
    n <- count (First pwdEntry) ;;
    if Nat.ltb 0 n then
      do_ (Click pwdEntry None None) ;;
      safeWaitForLoad "open password change form" 45000
    else safeGoto directPasswordForm "Password change form (retry)" 45000
  else ret tt.

Definition verifyIdentityIfPrompted (I : Inputs) : M unit :=
  n <- count (First (Css "#wpPassword1")) ;;
  let verifyPass := if Nat.eqb n 0 then ByLabel "password"
                    else Css "#wpPassword1" in
  n1 <- count (First verifyPass) ;;
  needVerify <-
    (if Nat.ltb 0 n1 then
       n2 <- count (First (ByLabel "new password")) ;;
       ret (Nat.eqb n2 0)
     else ret false) ;;
  if needVerify : bool then
    console_log "[verify] Identity verification detected; entering current password." ;;
    let verifyPass := First verifyPass in
    do_ (Click verifyPass None None) ;;
    do_ (Fill verifyPass "" None) ;;
    do_ (TypeText verifyPass (password I) 15) ;;
    do_ (Press verifyPass "Enter") ;;
    safeWaitForLoad "post-verify identity" 45000
  else ret tt.

Definition changePassword (I : Inputs) : M unit :=
  verifyIdentityIfPrompted I ;;
  let currentPw := First (ByLabel "current password") in
  n <- count currentPw ;;
  (if Nat.ltb 0 n then
     do_ (Click currentPw None None) ;;
     do_ (Fill currentPw "" None) ;;
     do_ (TypeText currentPw (password I) 15)
   else ret tt) ;;
  let newPw := First (ByLabel "new password") in
  _ <- waitVisible newPw "New password" 15000 ;;
  do_ (Click newPw None None) ;;
  do_ (Fill newPw "" None) ;;
  do_ (TypeText newPw (newPassword I) 15) ;;
  let confirmPw :=
    First (ByLabel "confirm new password|retype new password|confirm password") in
  _ <- waitVisible confirmPw "Confirm new password" 15000 ;;
  do_ (Click confirmPw None None) ;;
  do_ (Fill confirmPw "" None) ;;
  do_ (TypeText confirmPw (newPassword I) 15) ;;
  let submitBtn := First (ByRole "button" "save|change|submit|apply") in
  n <- count submitBtn ;;
  (if Nat.ltb 0 n then do_ (Click submitBtn None None)
   else do_ (Press confirmPw "Enter")) ;;
  safeWaitForLoad "submit password change" 45000 ;;
  url <- page_url ;;
  let stillOnForm := includes url passwordFormPath in
  n <- count (First (Css ".mw-message-box-error, .oo-ui-messageDialog-error")) ;;
  let hasErrorBox := Nat.ltb 0 n in
  if stillOnForm && hasErrorBox then
    throw (new_Error
      "Password change failed due to validation or policy error. Review new password complexity and try again.")
  else
    let successBox :=
      First (Css ".mw-message-box-success, .mw-notification-area, .mw-notification") in
    n <- count successBox ;;
    if Nat.ltb 0 n
    then console_log "[success] Success message detected after password change."
    else console_log
           "[info] No explicit success banner detected; assuming success if not on form.".

(** The body of the [try] block. *)
Definition steps (I : Inputs) : M RunResult :=
  login I ;;
  navigateToChangePassword I ;;
  changePassword I ;;
  ret {| success := true;
         message := "Logged in and submitted password change successfully." |}.

Definition on_error (error : Exn) : M RunResult :=
  console_error ("[error] " +:+ message_or_self error) ;;
  ret {| success := false;
         message := "Failed during workflow: " +:+ message_or_self error |}.

Definition ChangeWikipediaPassword (env : ProcessEnv) : M RunResult :=
  let I := INPUTS env in
  getAnchorBrowser (sessionId env) ;;
  do_ FirstPage ;;
  if String.eqb (username I) "" || String.eqb (password I) ""
     || String.eqb (newPassword I) ""
  then
    let msg := "Missing required inputs: ANCHOR_WIKI_USERNAME, ANCHOR_WIKI_PASSWORD, ANCHOR_WIKI_NEW_PASSWORD" in
    console_error msg ;;
    ret {| success := false; message := msg |}
  else try_catch (steps I) on_error.

End Wikipedia.

(** ** The five flows, and runs *)

Inductive FlowId := FandomF | PCPartPickerF | ZillowF | WeatherF | WikipediaF.

Section Flows.
Context {U : UrlApi}.

Definition run_flow (f : FlowId) (env : ProcessEnv) : M RunResult :=
  match f with
  | FandomF => Fandom.FandomChangePasswordFlow env
  | PCPartPickerF => PCPartPicker.pcppChangePasswordTask env
  | ZillowF => Zillow.zillowChangePasswordFlow env
  | WeatherF => Weather.WeatherComChangePassword env
  | WikipediaF => Wikipedia.ChangeWikipediaPassword env
  end.

(** The state a module is in when its flow is first invoked. *)
Definition start (f : FlowId) (env : ProcessEnv) : State :=
  init_state (match f with
              | WikipediaF => Wikipedia.initial_totpCode env
              | _ => ""
              end).

Definition execute (f : FlowId) (env : ProcessEnv) (sc : Script)
  : Res RunResult * State :=
  run_flow f env sc (start f env).

(** The body of each flow's [try] block and its [catch] handler. *)
Definition flow_steps (f : FlowId) (env : ProcessEnv) : M RunResult :=
  match f with
  | FandomF =>
      let I := Fandom.INPUTS env in
      Fandom.steps (Fandom.buildUrls (Fandom.baseUrl I))
        (the (Fandom.username I)) (the (Fandom.password I))
        (the (Fandom.newPassword I))
  | PCPartPickerF => PCPartPicker.steps (PCPartPicker.INPUTS env)
  | ZillowF => Zillow.steps (Zillow.INPUTS env)
  | WeatherF =>
      let I := Weather.INPUTS env in
      Weather.steps (strip_trailing_slash (Weather.baseUrl I))
        (Weather.username I) (Weather.password I)
        (or_else (Some (Weather.currentPassword I)) (Weather.password I))
        (Weather.newPassword I)
  | WikipediaF => Wikipedia.steps (Wikipedia.INPUTS env)
  end.

Definition flow_on_error (f : FlowId) : Exn -> M RunResult :=
  match f with
  | FandomF => Fandom.on_error
  | PCPartPickerF => PCPartPicker.on_error
  | ZillowF => Zillow.on_error
  | WeatherF => Weather.on_error
  | WikipediaF => Wikipedia.on_error
  end.

(** The required inputs of each flow: the variable a value is read from
    first, and the value the flow ends up with. *)
Definition required_inputs (f : FlowId) (env : ProcessEnv)
  : list (string * jsval) :=
  match f with
  | FandomF =>
      let I := Fandom.INPUTS env in
      [("ANCHOR_FANDOM_USERNAME", Fandom.username I);
       ("ANCHOR_FANDOM_PASSWORD", Fandom.password I);
       ("ANCHOR_FANDOM_NEW_PASSWORD", Fandom.newPassword I)]
  | PCPartPickerF =>
      let I := PCPartPicker.INPUTS env in
      [("ANCHOR_USERNAME", PCPartPicker.username I);
       ("ANCHOR_PASSWORD", PCPartPicker.oldPassword I);
       ("ANCHOR_NEW_PASSWORD", PCPartPicker.newPassword I)]
  | ZillowF =>
      let I := Zillow.INPUTS env in
      [("ANCHOR_EMAIL", Zillow.email I);
       ("ANCHOR_CURRENT_PASSWORD", Zillow.currentPassword I);
       ("ANCHOR_NEW_PASSWORD", Zillow.newPassword I)]
  | WeatherF =>
      let I := Weather.INPUTS env in
      [("ANCHOR_WEATHER_EMAIL", Weather.username I);
       ("ANCHOR_WEATHER_PASSWORD", Weather.password I);
       ("ANCHOR_WEATHER_NEW_PASSWORD", Weather.newPassword I)]
  | WikipediaF =>
      let I := Wikipedia.INPUTS env in
      [("ANCHOR_WIKI_USERNAME", Some (Wikipedia.username I));
       ("ANCHOR_WIKI_PASSWORD", Some (Wikipedia.password I));
       ("ANCHOR_WIKI_NEW_PASSWORD", Some (Wikipedia.newPassword I))]
  end.

(** Some required input is absent or empty. *)
Definition input_missing (f : FlowId) (env : ProcessEnv) : bool :=
  existsb (fun nv => negb (truthy (snd nv))) (required_inputs f env).

(** The provider call that [getAnchorBrowser] makes. *)
Definition acquire_op (env : ProcessEnv) : Op :=
  let sid := or_default (env !! "ANCHOR_SESSION_ID") "" in
  if negb (String.eqb sid "") then BrowserConnect sid else BrowserCreate.

End Flows.

(** Calls made to the browser provider, as opposed to calls on the page. *)
Definition provider_op (op : Op) : bool :=
  match op with
  | BrowserConnect _ | BrowserCreate | FirstPage => true
  | _ => false
  end.

(** ** A plain URL parser

    [new URL(u)] restricted to lower-case absolute URLs of the shape
    [scheme://host[:port][/path][?query][#fragment]], without credentials. *)

Fixpoint after_scheme (s : string) : option string :=
  match s with
  | EmptyString => None
  | String c s' =>
      if starts_with s "://"
      then match s' with
           | String _ (String _ rest) => Some rest
           | _ => None
           end
      else after_scheme s'
  end.

Fixpoint take_until (stop : ascii -> bool) (s : string) : string :=
  match s with
  | EmptyString => EmptyString
  | String c s' => if stop c then EmptyString else String c (take_until stop s')
  end.

Definition authority_end (c : ascii) : bool :=
  Ascii.eqb c "/" || Ascii.eqb c "?" || Ascii.eqb c "#".

Definition plain_host (u : string) : option string :=
  match after_scheme u with
  | None => None
  | Some rest =>
      let h := take_until authority_end rest in
      if String.eqb h "" then None else Some h
  end.

Definition plain_hostname (u : string) : option string :=
  match plain_host u with
  | None => None
  | Some h => Some (take_until (fun c => Ascii.eqb c ":") h)
  end.

Definition plain_urls : UrlApi :=
  {| url_host := plain_host; url_hostname := plain_hostname |}.

(** ** Sample answers and scripts *)

Definition ok_answer : Answer :=
  {| ans_exn := None; ans_bool := false; ans_str := ""; ans_nat := 0;
     ans_resp := None; ans_otp := None; ans_late := false |}.

Definition reject_with (e : Exn) : Answer :=
  {| ans_exn := Some e; ans_bool := false; ans_str := ""; ans_nat := 0;
     ans_resp := None; ans_otp := None; ans_late := false |}.

Definition at_url (u : string) : Answer :=
  {| ans_exn := None; ans_bool := false; ans_str := u; ans_nat := 0;
     ans_resp := None; ans_otp := None; ans_late := false |}.

Definition timeout_error : Exn :=
  ErrorObj "TimeoutError" "Timeout 30000ms exceeded.".

(** The script that answers the calls listed and resolves every other one. *)
Definition script_of (answers : list (nat * Answer)) : Script :=
  fun n =>
    match List.find (fun p => Nat.eqb (fst p) n) answers with
    | Some p => snd p
    | None => ok_answer
    end.

(** ** Properties of computations and traces *)

(** Every call that [m] issues satisfies [P]. *)
Definition emits {A} (P : Event -> Prop) (m : M A) : Prop :=
  forall sc st, exists l,
    trace (snd (m sc st)) = (trace st ++ l)%list /\ Forall P l.

(** [m] never rejects. *)
Definition total {A} (m : M A) : Prop :=
  forall sc st, exists a st', m sc st = (Ret a, st').




(** A fresh run in which the provider hands over the page: its first two
    calls, to the provider, resolve. *)
Definition provider_ok (sc : Script) : Prop :=
  ans_exn (sc 0) = None /\ ans_exn (sc 1) = None.

(** The state of such a run when input validation starts. *)
Definition acquired (f : FlowId) (env : ProcessEnv) : State :=
  record FirstPage None (record (acquire_op env) None (start f env)).

(** Two URLs that parse and have the same, non-empty host. *)
Definition same_host {U : UrlApi} (target current : string) : bool :=
  match url_host target, url_host current with
  | Some targetHost, Some currentHost =>
      negb (String.eqb targetHost "") && negb (String.eqb currentHost "")
      && String.eqb targetHost currentHost
  | _, _ => false
  end.

(** [console.error(msg)] as a state change. *)
Definition log_error (msg : string) (st : State) : State :=
  {| trace := trace st;
     console := (console st ++ [(ErrorL, msg)])%list;
     totpCode := totpCode st |}.

(** An environment that configures every flow for the user [alice], who
    moves from [P@ss1] to [P@ss2!]. *)
Definition alice_env : ProcessEnv :=
  list_to_map
    [("ANCHOR_USERNAME", "alice"); ("ANCHOR_EMAIL", "alice@example.com");
     ("ANCHOR_OLD_PASSWORD", "P@ss1"); ("ANCHOR_CURRENT_PASSWORD", "P@ss1");
     ("ANCHOR_NEW_PASSWORD", "P@ss2!");
     ("ANCHOR_FANDOM_USERNAME", "alice"); ("ANCHOR_FANDOM_PASSWORD", "P@ss1");
     ("ANCHOR_FANDOM_NEW_PASSWORD", "P@ss2!");
     ("ANCHOR_WEATHER_EMAIL", "alice@example.com");
     ("ANCHOR_WEATHER_PASSWORD", "P@ss1");
     ("ANCHOR_WEATHER_NEW_PASSWORD", "P@ss2!");
     ("ANCHOR_WIKI_USERNAME", "alice"); ("ANCHOR_WIKI_PASSWORD", "P@ss1");
     ("ANCHOR_WIKI_NEW_PASSWORD", "P@ss2!")].

(** The provider is unreachable, and a session without a page. *)
Definition provider_error : Exn := ErrorObj "Error" "Connection error.".
Definition no_page_error : Exn :=
  ErrorObj "TypeError" "Cannot read properties of undefined (reading 'pages')".

(** The page that has ended on a given URL, shows nothing looked for, and on
    which no call rejects. *)
Definition idle_at (u : string) : Script := fun _ => at_url u.

(** Runs of [m] whose trace comes to hold the call [ev] end as [Q] says. *)
Definition when_reached {A} (ev : Event) (Q : Res A -> Prop) (m : M A) : Prop :=
  forall sc st,
    ~ In ev (trace st) ->
    In ev (trace (snd (m sc st))) ->
    Q (fst (m sc st)).

(** The Apply click of Zillow's change-password dialog, resolved. *)
Definition zillow_apply_clicked : Event :=
  (Click Zillow.applyBtn None None, None).

Definition zillow_success : RunResult :=
  {| success := true;
     message := "Password change flow executed and logout attempted successfully." |}.





(** Calls that resolved. *)
Definition resolved (ops : list Op) : list Event :=
  map (fun op => (op, None)) ops.







(** ** Timeouts *)









(** ** Credentials and the console *)






(** The post-submit waits both time out and the logout navigation fails with
    the page stranded on another host. *)
Definition zillow_no_signal : Script :=
  script_of [(20, reject_with timeout_error); (21, reject_with timeout_error);
             (22, reject_with timeout_error);
             (23, at_url "https://login.example/")].

(** ** Further properties: strings and inputs *)

(** A string made of asterisks only. *)
Fixpoint only_stars (s : string) : bool :=
  match s with
  | EmptyString => true
  | String c s' => Ascii.eqb c "*" && only_stars s'
  end.

(** [s.endsWith('/')] *)
Fixpoint ends_with_slash (s : string) : bool :=
  match s with
  | EmptyString => false
  | String c EmptyString => Ascii.eqb c "/"
  | String _ s' => ends_with_slash s'
  end.

(** The first value of a list that is defined and not empty; when there is
    none, the last value of the list (what a chain of [||] leaves). *)
Fixpoint first_truthy (vs : list jsval) : jsval :=
  match vs with
  | [] => None
  | [v] => v
  | v :: rest => if truthy v then v else first_truthy rest
  end.

(** ** Further properties: what a successful run has done *)

(** Whenever [m] returns a value that satisfies [C], the calls it has issued
    hold the calls [l], in that order (other calls may come in between). *)
Definition yields {A} (C : A -> Prop) (l : list Event) (m : M A) : Prop :=
  forall sc st, exists l',
    trace (snd (m sc st)) = (trace st ++ l')%list
    /\ forall a, fst (m sc st) = Ret a -> C a -> l `sublist_of` l'.

Definition succeeded (r : RunResult) : Prop := success r = true.

(** What a successful Zillow run has typed and clicked. *)
Definition zillow_submission (I : Zillow.Inputs) : list Op :=
  [Fill Zillow.emailInput (the (Zillow.email I)) None;
   Press Zillow.emailInput "Enter";
   Fill Zillow.pwdInput (the (Zillow.currentPassword I)) None;
   Press Zillow.pwdInput "Enter";
   Click Zillow.changePwdBtn None None;
   Fill Zillow.currentPwdInput (the (Zillow.currentPassword I)) None;
   Fill Zillow.newPwdInput (the (Zillow.newPassword I)) None;
   Fill Zillow.confirmPwdInput (the (Zillow.newPassword I)) None;
   Click Zillow.applyBtn None None].

(** What a successful PCPartPicker run has waited for, typed and clicked. *)
Definition pcpp_submission (username oldPassword newPassword : string) : list Op :=
  [WaitFor (First (Css PCPartPicker.loginFormSel)) Visible (Some 20000%N);
   WaitFor (First (Css PCPartPicker.userSel)) Visible (Some 20000%N);
   WaitFor (First (Css PCPartPicker.passSel)) Visible (Some 20000%N);
   Fill (First (Css PCPartPicker.userSel)) username None;
   Fill (First (Css PCPartPicker.passSel)) oldPassword None;
   Click (First (Css PCPartPicker.submitSel)) None None;
   WaitFor (First (Css PCPartPicker.oldPassSel)) Visible (Some 20000%N);
   WaitFor (First (Css PCPartPicker.newPass1Sel)) Visible (Some 20000%N);
   WaitFor (First (Css PCPartPicker.newPass2Sel)) Visible (Some 20000%N);
   Fill (First (Css PCPartPicker.oldPassSel)) oldPassword None;
   Fill (First (Css PCPartPicker.newPass1Sel)) newPassword None;
   Fill (First (Css PCPartPicker.newPass2Sel)) newPassword None;
   Click (First (Css PCPartPicker.changeBtnSel)) None None].

(** The values the PCPartPicker flow works with: the first of the aliases
    that is set and not empty. *)
Definition pcpp_username (env : ProcessEnv) : string :=
  the (first_truthy [env !! "ANCHOR_USERNAME"; env !! "ANCHOR_LOGIN";
                     env !! "ANCHOR_EMAIL"]).
Definition pcpp_old_password (env : ProcessEnv) : string :=
  the (first_truthy [env !! "ANCHOR_OLD_PASSWORD"; env !! "ANCHOR_PASSWORD"]).
Definition pcpp_new_password (env : ProcessEnv) : string :=
  the (env !! "ANCHOR_NEW_PASSWORD").

(** The values the weather.com flow types into the change-password dialog:
    the site's own variable before the general one, and the login password
    where no current password is given. *)
Definition weather_current_password (env : ProcessEnv) : string :=
  the (first_truthy [env !! "ANCHOR_WEATHER_CURRENT_PASSWORD";
                     env !! "ANCHOR_CURRENT_PASSWORD";
                     env !! "ANCHOR_WEATHER_PASSWORD";
                     env !! "ANCHOR_PASSWORD"]).
Definition weather_new_password (env : ProcessEnv) : string :=
  the (first_truthy [env !! "ANCHOR_WEATHER_NEW_PASSWORD";
                     env !! "ANCHOR_NEW_PASSWORD"]).

(** What a successful weather.com run has done in the change-password
    dialog: each field cleared and then written, and the form saved. *)
Definition weather_submission (currentPassword newPassword : string) : list Op :=
  [Click (First (Css Weather.changePasswordSel)) None (Some 15000%N);
   Fill (First (Css "#changePasswordCurrentPassword")) "" None;
   Fill (First (Css "#changePasswordCurrentPassword")) currentPassword
        (Some 15000%N);
   Fill (First (Css "#changePasswordNewPassword")) "" None;
   Fill (First (Css "#changePasswordNewPassword")) newPassword (Some 15000%N);
   Fill (First (Css "#changePasswordConfirmPassword")) "" None;
   Fill (First (Css "#changePasswordConfirmPassword")) newPassword
        (Some 15000%N);
   Click (First (Css Weather.saveSel)) None (Some 15000%N)].

(** What a successful Fandom run has done: the login, the new password
    submitted with Enter, and the logout confirmed. *)
Definition fandom_submission (urls : Fandom.Urls)
    (username password newPassword : string) : list Op :=
  [Goto (Fandom.loginUrl urls) None;
   WaitForSelector Fandom.signinUsername Visible None]
  ++ [WaitForSelector Fandom.signinUsername Visible None;
      Click (First (Css Fandom.signinUsername)) None None;
      Fill (First (Css Fandom.signinUsername)) username (Some 15000%N);
      Click (First (Css Fandom.signinPassword)) None None;
      Fill (First (Css Fandom.signinPassword)) password None;
      WaitForNavigation None;
      Click (First (Css Fandom.signinSubmit)) None None]
  ++ [Goto (Fandom.changePasswordUrl urls) None;
      WaitForSelector Fandom.settingsNewPassword Visible None;
      Click (First (Css Fandom.settingsNewPassword)) None None;
      Fill (First (Css Fandom.settingsNewPassword)) newPassword None;
      Press (First (Css Fandom.settingsNewPassword)) "Enter";
      Goto (Fandom.logoutUrl urls) None;
      WaitFor (First (Css Fandom.logoutConfirm)) Visible None;
      Click (First (Css Fandom.logoutConfirm)) (Some 50%N) None].

(** What a successful Wikipedia run has done on the password form. *)
Definition wikipedia_submission (I : Wikipedia.Inputs) : list Op :=
  let newPw := First (ByLabel "new password") in
  let confirmPw :=
    First (ByLabel "confirm new password|retype new password|confirm password") in
  [Goto (Wikipedia.baseUrl I +:+ "/wiki/" +:+ Wikipedia.passwordFormPath)
        (Some 45000%N);
   WaitFor (First newPw) Visible (Some 15000%N);
   Click newPw None None;
   Fill newPw "" None;
   TypeText newPw (Wikipedia.newPassword I) 15;
   WaitFor (First confirmPw) Visible (Some 15000%N);
   Click confirmPw None None;
   Fill confirmPw "" None;
   TypeText confirmPw (Wikipedia.newPassword I) 15].

(** A page on which every probe finds what it looks for and no call
    rejects, resting on the URL [u]. *)
Definition found_at (u : string) : Answer :=
  {| ans_exn := None; ans_bool := true; ans_str := u; ans_nat := 1;
     ans_resp := None; ans_otp := None; ans_late := false |}.
Definition welcoming (u : string) : Script := fun _ => found_at u.

(** [alice] with the general variables only, and with her name under
    ANCHOR_LOGIN and an empty ANCHOR_USERNAME. *)
Definition alice_general_env : ProcessEnv :=
  list_to_map
    [("ANCHOR_USERNAME", "alice"); ("ANCHOR_PASSWORD", "P@ss1");
     ("ANCHOR_NEW_PASSWORD", "P@ss2!")].
Definition alice_login_env : ProcessEnv :=
  <["ANCHOR_LOGIN" := "alice"]> (<["ANCHOR_USERNAME" := ""]> alice_general_env).

(** ** Further properties: the shape of a run *)

(** A run that has acquired its session, looked up the page if the session
    came, and from there on neither acquired a session nor looked up the
    page again. *)
Definition well_started (first : Op) (l : list Event) : Prop :=
  (exists e, l = [(first, Some e)])
  \/ (exists y calls,
        l = (first, None) :: (FirstPage, y) :: calls
        /\ Forall (fun ev => provider_op (fst ev) = false) calls).

(** A navigation answered with an HTTP error page. *)
Definition not_found : Answer :=
  {| ans_exn := None; ans_bool := false; ans_str := ""; ans_nat := 0;
     ans_resp := Some {| resp_ok := false; resp_status := 404;
                         resp_statusText := "Not Found" |};
     ans_otp := None; ans_late := false |}.

(** ** Further properties: weather.com helpers *)

(** The three calls of [fillInput]. *)
Definition fillInput_ops (selector value : string) : list Op :=
  [WaitFor (First (Css selector)) Visible (Some 20000%N);
   Fill (First (Css selector)) "" None;
   Fill (First (Css selector)) value (Some 15000%N)].

(** What Step G reports when neither wait resolves: the hint read from the
    page, or a fixed text when it cannot be read. *)
Definition weather_verify_failure (hint : Answer) : RunResult :=
  {| success := false;
     message := "Password change may have failed. Dialog still present. Error hint: "
                +:+ match ans_exn hint with
                    | Some _ => "Unknown error"
                    | None => ans_str hint
                    end |}.

Definition weather_success : RunResult :=
  {| success := true;
     message := "Password changed successfully on weather.com" |}.

(** The avatar is not clickable and the settings page does not load, with
    the page resting on another site. *)
Definition weather_settings_unreachable : Script :=
  script_of [(0, reject_with timeout_error); (2, reject_with timeout_error);
             (4, reject_with timeout_error);
             (5, at_url "https://login.example/")].

(** ** Further properties: results *)

(** Every value that [m] returns satisfies [Q]. *)
Definition returns {A} (Q : A -> Prop) (m : M A) : Prop :=
  forall sc st a st', m sc st = (Ret a, st') -> Q a.

(** The text a flow's success message begins with. *)
Definition success_text (f : FlowId) : string :=
  match f with
  | FandomF => "Password changed and logout completed. Final URL: "
  | PCPartPickerF => "Password changed successfully."
  | ZillowF => "Password change flow executed and logout attempted successfully."
  | WeatherF => "Password changed successfully on weather.com"
  | WikipediaF => "Logged in and submitted password change successfully."
  end.

(** The flag of a result says what its message says. *)
Definition flag_matches_message (f : FlowId) (r : RunResult) : Prop :=
  success r = starts_with (message r) (success_text f).

(** ** Further properties: the Wikipedia one-time code *)

(** Every call that [m] issues satisfies [P], and [m] leaves the stored
    one-time code [c] as it is. *)
Definition keeps {A} (c : string) (P : Event -> Prop) (m : M A) : Prop :=
  forall sc st, totpCode st = c ->
    exists l, trace (snd (m sc st)) = (trace st ++ l)%list
              /\ Forall P l /\ totpCode (snd (m sc st)) = c.

(** The field the one-time code goes into. *)
Definition twoFAInput : Locator :=
  First (ByLabel "one-time|authentication code|verification code|2-step").

(** A call of a run that works with the configured code [c]: it does not
    wait for a code to arrive, and what it types into the code field is [c]. *)
Definition uses_configured_code (c : string) (ev : Event) : Prop :=
  match fst ev with
  | EventsWaitFor _ => False
  | TypeText l v _ => l = twoFAInput -> v = c
  | _ => True
  end.

(** [alice] with a one-time code configured, and a login that is answered
    with the two-factor page. *)
Definition alice_totp_env : ProcessEnv :=
  <["ANCHOR_WIKI_TOTP_CODE" := "123456"]> alice_env.
Definition answer_count (n : nat) : Answer :=
  {| ans_exn := None; ans_bool := false; ans_str := ""; ans_nat := n;
     ans_resp := None; ans_otp := None; ans_late := false |}.
Definition two_factor_page : Script := script_of [(19, answer_count 1)].

(** The two-factor page found by its heading. *)
Definition twoFAHeading : Locator :=
  First (ByRole "heading" "two-factor|oath|authentication code").

(** The two calls of a run that has to ask for its one-time code. *)
Definition code_requested : list Event :=
  [(Count twoFAHeading, None);
   (EventsWaitFor "wikipedia-rotate-email-totp", None)].

(** An event that carries the one-time code [code]. *)
Definition otp_event (code : string) : Answer :=
  {| ans_exn := None; ans_bool := false; ans_str := ""; ans_nat := 0;
     ans_resp := None; ans_otp := Some code; ans_late := false |}.
Definition two_factor_then_event : Script :=
  script_of [(0, answer_count 1); (1, otp_event "654321")].

(** ** Further properties: a Wikipedia session that is already logged in *)

(** The navigation to the login page. *)
Definition wikipedia_login_navigation (env : ProcessEnv) : Op :=
  Goto (Wikipedia.baseUrl (Wikipedia.INPUTS env)
        +:+ "/w/index.php?title=Special:UserLogin") (Some 45000%N).

(** A session whose page shows the user's own link. *)
Definition logged_in_page : Script := script_of [(2, answer_count 1)].

(** ** Further properties: failures and the error log *)

(** An error line has been written to the console. *)
Definition logged (st : State) : Prop :=
  exists line, In (ErrorL, line) (console st).

(** Started in a state that satisfies [pre], whatever [m] returns satisfies
    [post] together with the state it leaves. *)
Definition hoare {A} (pre : State -> Prop) (m : M A)
    (post : A -> State -> Prop) : Prop :=
  forall sc st a st', pre st -> m sc st = (Ret a, st') -> post a st'.

(** A failed result, or a helper's [false], comes with an error line. *)
Definition failure_logged (r : RunResult) (st : State) : Prop :=
  success r = false -> logged st.
Definition false_logged (b : bool) (st : State) : Prop :=
  b = false -> logged st.

(** The page on which nothing ever becomes visible. *)
Definition nothing_shows : Script :=
  fun n => if Nat.leb 3 n then reject_with timeout_error else ok_answer.

(** * Reasoning about computations *)

Section Calculus.
Context {A B : Type}.

Lemma bind_inv (m : M A) (k : A -> M B) sc st r st2 :
  bind m k sc st = (r, st2) ->
  (exists a st1, m sc st = (Ret a, st1) /\ k a sc st1 = (r, st2))
  \/ (exists e, m sc st = (Throw e, st2) /\ r = Throw e).
Proof.
  unfold bind. destruct (m sc st) as [[a | e] st1].
  - intros H. left. exists a, st1. split; [reflexivity | exact H].
  - intros H. injection H as <- <-. right. exists e. split; reflexivity.
Qed.

Lemma bind_ret_eq (m : M A) (k : A -> M B) sc st a st1 :
  m sc st = (Ret a, st1) -> bind m k sc st = k a sc st1.
Proof. intros H. unfold bind. rewrite H. reflexivity. Qed.

Lemma try_catch_throw_eq (m : M A) h sc st e st1 :
  m sc st = (Throw e, st1) -> try_catch m h sc st = h e sc st1.
Proof. intros H. unfold try_catch. rewrite H. reflexivity. Qed.

(** ** Calls issued *)

Lemma emits_ret P (a : A) : emits P (ret a).
Proof. intros sc st. exists []. rewrite app_nil_r. split; [reflexivity | constructor]. Qed.

Lemma emits_throw P e : emits P (@throw A e).
Proof. intros sc st. exists []. rewrite app_nil_r. split; [reflexivity | constructor]. Qed.

Lemma emits_bind P (m : M A) (k : A -> M B) :
  emits P m -> (forall a, emits P (k a)) -> emits P (bind m k).
Proof.
  intros Hm Hk sc st. unfold bind.
  destruct (Hm sc st) as (l1 & E1 & F1).
  destruct (m sc st) as [[a | e] st1]; simpl in E1.
  - destruct (Hk a sc st1) as (l2 & E2 & F2).
    exists (l1 ++ l2)%list. split.
    + rewrite E2, E1, app_assoc. reflexivity.
    + apply Forall_app. split; assumption.
  - exists l1. split; assumption.
Qed.

Lemma emits_try_catch P (m : M A) h :
  emits P m -> (forall e, emits P (h e)) -> emits P (try_catch m h).
Proof.
  intros Hm Hh sc st. unfold try_catch.
  destruct (Hm sc st) as (l1 & E1 & F1).
  destruct (m sc st) as [[a | e] st1]; simpl in E1.
  - exists l1. split; assumption.
  - destruct (Hh e sc st1) as (l2 & E2 & F2).
    exists (l1 ++ l2)%list. split.
    + rewrite E2, E1, app_assoc. reflexivity.
    + apply Forall_app. split; assumption.
Qed.

Lemma emits_settle P (m : M A) : emits P m -> emits P (settle m).
Proof.
  intros Hm sc st. unfold settle.
  destruct (Hm sc st) as (l1 & E1 & F1).
  destruct (m sc st) as [r st1]. exists l1. split; assumption.
Qed.

(** ** Rejection-free computations *)

Lemma total_ret (a : A) : total (ret a).
Proof. intros sc st. exists a, st. reflexivity. Qed.

Lemma total_bind (m : M A) (k : A -> M B) :
  total m -> (forall a, total (k a)) -> total (bind m k).
Proof.
  intros Hm Hk sc st. destruct (Hm sc st) as (a & st1 & E).
  rewrite (bind_ret_eq _ _ _ _ _ _ E). apply Hk.
Qed.

Lemma total_try_catch (m : M A) h :
  (forall e, total (h e)) -> total (try_catch m h).
Proof.
  intros Hh sc st. unfold try_catch.
  destruct (m sc st) as [[a | e] st1].
  - exists a, st1. reflexivity.
  - apply Hh.
Qed.

Lemma total_settle (m : M A) : total (settle m).
Proof.
  intros sc st. unfold settle. destruct (m sc st) as [r st1].
  exists r, st1. reflexivity.
Qed.

End Calculus.

Lemma emits_call P op :
  (forall x, P (op, x)) -> emits P (call op).
Proof.
  intros H sc st. unfold call.
  destruct (ans_exn (sc (length (trace st)))) as [e |]; simpl;
    eexists; (split; [reflexivity |]); repeat constructor; apply H.
Qed.

Lemma emits_call_total P op : P (op, None) -> emits P (call_total op).
Proof.
  intros H sc st. unfold call_total. simpl.
  eexists. split; [reflexivity |]. repeat constructor. exact H.
Qed.

Lemma emits_console P lv line : emits P (console_write lv line).
Proof. intros sc st. exists []. simpl. rewrite app_nil_r. split; [reflexivity | constructor]. Qed.

Lemma emits_get_totp P : emits P get_totp.
Proof. intros sc st. exists []. simpl. rewrite app_nil_r. split; [reflexivity | constructor]. Qed.

Lemma emits_set_totp P v : emits P (set_totp v).
Proof. intros sc st. exists []. simpl. rewrite app_nil_r. split; [reflexivity | constructor]. Qed.

Lemma emits_calls_so_far P : emits P calls_so_far.
Proof. intros sc st. exists []. simpl. rewrite app_nil_r. split; [reflexivity | constructor]. Qed.

Lemma emits_settles_late P i : emits P (settles_late i).
Proof. intros sc st. exists []. simpl. rewrite app_nil_r. split; [reflexivity | constructor]. Qed.

Lemma total_call_total op : total (call_total op).
Proof. intros sc st. eexists _, _. reflexivity. Qed.

Lemma total_console lv line : total (console_write lv line).
Proof. intros sc st. eexists _, _. reflexivity. Qed.

Lemma total_get_totp : total get_totp.
Proof. intros sc st. eexists _, _. reflexivity. Qed.

Lemma total_set_totp v : total (set_totp v).
Proof. intros sc st. eexists _, _. reflexivity. Qed.

Lemma total_calls_so_far : total calls_so_far.
Proof. intros sc st. eexists _, _. reflexivity. Qed.

Lemma total_settles_late i : total (settles_late i).
Proof. intros sc st. eexists _, _. reflexivity. Qed.

(** The structural steps shared by the two judgements; what is left over
    afterwards are the side conditions on single calls. *)
Ltac flow_unfold :=
  unfold do_, goto, isVisible, count, innerText, page_url, waitForTimeout,
    swallow, promise_all2, promise_race_swallowed,
    console_log, console_info, console_warn, console_error.

Ltac emits_step :=
  lazymatch goal with
  | |- emits _ (bind _ _) => apply emits_bind; [| intros ?]
  | |- emits _ (try_catch _ _) => apply emits_try_catch; [| intros ?]
  | |- emits _ (settle _) => apply emits_settle
  | |- emits _ (ret _) => apply emits_ret
  | |- emits _ (throw _) => apply emits_throw
  | |- emits _ (call _) => apply emits_call; intros ?
  | |- emits _ (call_total _) => apply emits_call_total
  | |- emits _ (console_write _ _) => apply emits_console
  | |- emits _ get_totp => apply emits_get_totp
  | |- emits _ (set_totp _) => apply emits_set_totp
  | |- emits _ calls_so_far => apply emits_calls_so_far
  | |- emits _ (settles_late _) => apply emits_settles_late
  | |- emits _ (if ?b then _ else _) => destruct b
  | |- emits _ (match ?x with _ => _ end) => destruct x
  | |- emits _ (let _ := _ in _) => cbv zeta
  end.

Ltac total_step :=
  lazymatch goal with
  | |- total (bind _ _) => apply total_bind; [| intros ?]
  | |- total (try_catch _ _) => apply total_try_catch; intros ?
  | |- total (settle _) => apply total_settle
  | |- total (ret _) => apply total_ret
  | |- total (call_total _) => apply total_call_total
  | |- total (console_write _ _) => apply total_console
  | |- total get_totp => apply total_get_totp
  | |- total (set_totp _) => apply total_set_totp
  | |- total calls_so_far => apply total_calls_so_far
  | |- total (settles_late _) => apply total_settles_late
  | |- total (if ?b then _ else _) => destruct b
  | |- total (match ?x with _ => _ end) => destruct x
  | |- total (let _ := _ in _) => cbv zeta
  end.

(** * Substrings *)

Lemma starts_with_spec t : forall s,
  starts_with s t = true <-> exists q, s = t +:+ q.
Proof.
  induction t as [| c t IH]; intros s; simpl.
  - split; [intros _; exists s; reflexivity | reflexivity].
  - destruct s as [| d s]; [split; [discriminate | intros [q Hq]; discriminate] |].
    rewrite andb_true_iff, IH, Ascii.eqb_eq. split.
    + intros [-> [q ->]]. exists q. reflexivity.
    + intros [q Hq]. injection Hq as -> ->. split; [reflexivity | exists q; reflexivity].
Qed.

Lemma includes_spec s : forall t,
  includes s t = true <-> exists p q, s = p +:+ t +:+ q.
Proof.
  induction s as [| c s IH]; intros t; cbn [includes].
  - destruct (starts_with "" t) eqn:Hp.
    + split; [intros _ | reflexivity].
      apply starts_with_spec in Hp. destruct Hp as [q Hq]. exists "", q. exact Hq.
    + split; [discriminate |]. intros (p & q & H).
      destruct p; [| discriminate]. simpl in H.
      assert (starts_with "" t = true) by (apply starts_with_spec; exists q; exact H).
      congruence.
  - destruct (starts_with (String c s) t) eqn:Hp.
    + split; [intros _ | reflexivity].
      apply starts_with_spec in Hp. destruct Hp as [q Hq]. exists "", q. exact Hq.
    + rewrite IH. split.
      * intros (p & q & ->). exists (String c p), q. reflexivity.
      * intros (p & q & H). destruct p as [| d p].
        -- simpl in H.
           assert (starts_with (String c s) t = true)
             by (apply starts_with_spec; exists q; exact H).
           congruence.
        -- simpl in H. injection H as _ ->. exists p, q. reflexivity.
Qed.

Lemma append_cons x (a b : string) : String x a +:+ b = String x (a +:+ b).
Proof. reflexivity. Qed.

Lemma append_assoc (a b c : string) : (a +:+ b) +:+ c = a +:+ (b +:+ c).
Proof.
  induction a as [| x a IH]; [reflexivity |].
  rewrite !append_cons. f_equal. exact IH.
Qed.

Lemma append_nil_r (a : string) : a +:+ "" = a.
Proof.
  induction a as [| x a IH]; [reflexivity |].
  rewrite append_cons. f_equal. exact IH.
Qed.

(** A string that holds [a ++ b] holds [b]. *)
Lemma includes_suffix_of_needle s a b :
  includes s (a +:+ b) = true -> includes s b = true.
Proof.
  rewrite !includes_spec. intros (p & q & ->).
  exists (p +:+ a), q. rewrite !append_assoc. reflexivity.
Qed.

Lemma includes_append_r a b : includes (a +:+ b) b = true.
Proof. apply includes_spec. exists a, "". rewrite append_nil_r. reflexivity. Qed.

(** * The entry of a flow: acquisition and validation *)

Section Entry.
Context {U : UrlApi}.

Lemma getAnchorBrowser_run env sc st :
  (if negb (String.eqb (or_default (env !! "ANCHOR_SESSION_ID") "") "")
   then do_ (BrowserConnect (or_default (env !! "ANCHOR_SESSION_ID") ""))
   else do_ BrowserCreate) sc st
  = do_ (acquire_op env) sc st.
Proof. unfold acquire_op. destruct (negb _); reflexivity. Qed.

Lemma do_ok op sc st :
  ans_exn (sc (length (trace st))) = None ->
  do_ op sc st = (Ret tt, record op None st).
Proof. intros H. unfold do_, bind, call. rewrite H. reflexivity. Qed.

Lemma do_rejected op sc st e :
  ans_exn (sc (length (trace st))) = Some e ->
  do_ op sc st = (Throw e, record op (Some e) st).
Proof. intros H. unfold do_, bind, call. rewrite H. reflexivity. Qed.

(** An input shown present cannot be the missing one. *)
Ltac present_input Hv :=
  match goal with
  | E : truthy ?x = true |- _ =>
      let H := fresh in
      assert (H : truthy x = false) by exact Hv; congruence
  end.

Ltac enter_flow f :=
  unfold execute; destruct f; cbn [run_flow];
  [ unfold Fandom.FandomChangePasswordFlow, Fandom.getAnchorBrowser, Fandom.sessionId
  | unfold PCPartPicker.pcppChangePasswordTask, PCPartPicker.getAnchorBrowser, PCPartPicker.sessionId
  | unfold Zillow.zillowChangePasswordFlow, Zillow.getAnchorBrowser, Zillow.sessionId
  | unfold Weather.WeatherComChangePassword, Weather.getAnchorBrowser, Weather.sessionId
  | unfold Wikipedia.ChangeWikipediaPassword, Wikipedia.getAnchorBrowser, Wikipedia.sessionId ];
  cbv zeta; unfold bind at 1; rewrite getAnchorBrowser_run; unfold start.

(** When the provider call itself rejects, so does the flow: the call is made
    before the [try] block is entered. *)
Lemma execute_provider_down f env sc e :
  ans_exn (sc 0) = Some e ->
  execute f env sc = (Throw e, record (acquire_op env) (Some e) (start f env)).
Proof.
  intros H. enter_flow f;
    rewrite (do_rejected (acquire_op env) sc (init_state _) e H); reflexivity.
Qed.

Lemma execute_no_page f env sc e :
  ans_exn (sc 0) = None -> ans_exn (sc 1) = Some e ->
  execute f env sc
  = (Throw e, record FirstPage (Some e)
                (record (acquire_op env) None (start f env))).
Proof.
  intros H0 H1. enter_flow f;
    rewrite (do_ok (acquire_op env) sc (init_state _) H0); unfold bind at 1;
    rewrite (do_rejected FirstPage sc (record _ None (init_state _)) e H1); reflexivity.
Qed.

(** With the page in hand and the inputs present, a run is its [try] block
    under its [catch] handler. *)
Lemma execute_valid f env sc :
  provider_ok sc -> input_missing f env = false ->
  execute f env sc
  = try_catch (flow_steps f env) (flow_on_error f) sc (acquired f env).
Proof.
  intros [H0 H1] Hin. unfold acquired. revert Hin.
  unfold input_missing, required_inputs.
  enter_flow f;
    rewrite (do_ok (acquire_op env) sc (init_state _) H0); unfold bind at 1;
    rewrite (do_ok FirstPage sc (record _ None (init_state _)) H1); cbn [existsb snd]; intros Hin.
  - destruct (truthy (Fandom.username _)), (truthy (Fandom.password _)),
      (truthy (Fandom.newPassword _)); try discriminate Hin. reflexivity.
  - unfold PCPartPicker.listMissingInputs.
    destruct (truthy (PCPartPicker.username _)), (truthy (PCPartPicker.oldPassword _)),
      (truthy (PCPartPicker.newPassword _)); try discriminate Hin. reflexivity.
  - destruct (truthy (Zillow.email _)), (truthy (Zillow.currentPassword _)),
      (truthy (Zillow.newPassword _)); try discriminate Hin. reflexivity.
  - destruct (truthy (Weather.username _)), (truthy (Weather.password _)),
      (truthy (Weather.newPassword _)); try discriminate Hin. reflexivity.
  - cbn [truthy] in Hin.
    destruct (String.eqb (Wikipedia.username _) ""), (String.eqb (Wikipedia.password _) ""),
      (String.eqb (Wikipedia.newPassword _) ""); try discriminate Hin. reflexivity.
Qed.

(** With the page in hand and an input missing, a run ends at validation:
    it logs and returns a failure whose message holds the name of every
    missing input. *)
Lemma execute_missing f env sc :
  provider_ok sc -> input_missing f env = true ->
  exists msg,
    execute f env sc
    = (Ret {| success := false; message := msg |},
       log_error msg (acquired f env))
    /\ forall n v, In (n, v) (required_inputs f env) ->
                   truthy v = false -> includes msg n = true.
Proof.
  intros [H0 H1] Hin. unfold acquired. revert Hin.
  unfold input_missing, required_inputs.
  enter_flow f;
    rewrite (do_ok (acquire_op env) sc (init_state _) H0); unfold bind at 1;
    rewrite (do_ok FirstPage sc (record _ None (init_state _)) H1); cbn [existsb snd]; intros Hin.
  - eexists. split.
    + destruct (truthy (Fandom.username _)), (truthy (Fandom.password _)),
        (truthy (Fandom.newPassword _)); try discriminate Hin; reflexivity.
    + intros n v [E | [E | [E | []]]] _; injection E as <- _; vm_compute; reflexivity.
  - unfold PCPartPicker.listMissingInputs.
    destruct (truthy (PCPartPicker.username _)) eqn:Eu,
      (truthy (PCPartPicker.oldPassword _)) eqn:Ep,
      (truthy (PCPartPicker.newPassword _)) eqn:En; try discriminate Hin;
      (eexists; split; [reflexivity |]);
      intros n v [E | [E | [E | []]]] Hv; injection E as <- <-;
      first [ present_input Hv | vm_compute; reflexivity ].
  - unfold Zillow.missing_names.
    destruct (truthy (Zillow.email _)) eqn:Eu,
      (truthy (Zillow.currentPassword _)) eqn:Ep,
      (truthy (Zillow.newPassword _)) eqn:En; try discriminate Hin;
      (eexists; split; [reflexivity |]);
      intros n v [E | [E | [E | []]]] Hv; injection E as <- <-;
      first [ present_input Hv | vm_compute; reflexivity ].
  - eexists. split.
    + destruct (truthy (Weather.username _)), (truthy (Weather.password _)),
        (truthy (Weather.newPassword _)); try discriminate Hin; reflexivity.
    + intros n v [E | [E | [E | []]]] _; injection E as <- _; vm_compute; reflexivity.
  - eexists. split.
    + cbn [truthy] in Hin.
      destruct (String.eqb (Wikipedia.username _) ""), (String.eqb (Wikipedia.password _) ""),
        (String.eqb (Wikipedia.newPassword _) ""); try discriminate Hin; reflexivity.
    + intros n v [E | [E | [E | []]]] _; injection E as <- _; vm_compute; reflexivity.
Qed.

End Entry.

(** * Navigation helpers *)

Lemma length_record op x st :
  length (trace (record op x st)) = S (length (trace st)).
Proof. cbn [record trace]. rewrite List.length_app. cbn. lia. Qed.

(** Runs a computation as far as the answers known so far determine it. *)
Ltac run :=
  cbv beta iota zeta delta
    [bind try_catch ret throw settle call call_total console_write
     console_log console_error console_warn console_info do_ goto isVisible
     count innerText page_url waitForTimeout swallow promise_all2
     promise_race_swallowed calls_so_far settles_late get_totp set_totp];
  repeat (progress (cbn [trace console totpCode fst snd];
                    rewrite ?length_record)).

Section Navigation.
Context {U : UrlApi}.

Lemma zillow_safeGoto_rejected url label timeout sc st e :
  ans_exn (sc (length (trace st))) = Some e ->
  fst (Zillow.safeGoto url label timeout sc st)
  = Ret (same_host url (ans_str (sc (S (length (trace st)))))).
Proof.
  intros He. unfold Zillow.safeGoto, same_host. run. rewrite He. run.
  destruct (url_host url) as [th |]; [| reflexivity].
  destruct (url_host (ans_str (sc (S (length (trace st)))))) as [ch |]; [| reflexivity].
  destruct (negb (String.eqb th "") && negb (String.eqb ch "") && String.eqb th ch);
    reflexivity.
Qed.

Lemma weather_gotoWithLoad_rejected url timeout sc st e :
  ans_exn (sc (length (trace st))) = Some e ->
  fst (Weather.gotoWithLoad url timeout sc st)
  = match url_hostname url with
    | None => Throw Weather.invalid_url
    | Some hostname =>
        if includes (ans_str (sc (S (length (trace st))))) hostname
        then Ret tt else Throw e
    end.
Proof.
  intros He. unfold Weather.gotoWithLoad. run. rewrite He. run.
  destruct (url_hostname url) as [h |]; [| reflexivity].
  destruct (includes _ h); reflexivity.
Qed.

Lemma pcpp_safeGoto_returns url waitMs sc st :
  fst (PCPartPicker.safeGoto url waitMs sc st) = Ret tt.
Proof.
  unfold PCPartPicker.safeGoto. run.
  destruct (ans_exn (sc (length (trace st)))) as [e |]; [| reflexivity].
  run. destruct (ans_exn (sc _)); reflexivity.
Qed.

Lemma wikipedia_safeGoto_rejected url label timeout sc st e :
  ans_exn (sc (length (trace st))) = Some e ->
  fst (Wikipedia.safeGoto url label timeout sc st) = Throw e.
Proof.
  intros He. unfold Wikipedia.safeGoto. run. rewrite He. reflexivity.
Qed.

(** C4 (as amended).  When [page.goto] rejects, each navigation helper goes
    its own way.  Zillow's [safeGoto] reports [true] exactly when the current
    URL and the target parse to the same non-empty host, and [false]
    otherwise.  weather.com's [gotoWithLoad] carries on when the current URL
    holds the target's hostname as a substring and rethrows otherwise.
    PCPartPicker's [safeGoto] always carries on.  Wikipedia's [safeGoto]
    always lets the rejection through. *)
Theorem navigation_after_rejected_goto url label timeout sc st e current :
  ans_exn (sc (length (trace st))) = Some e ->
  ans_str (sc (S (length (trace st)))) = current ->
  fst (Zillow.safeGoto url label timeout sc st) = Ret (same_host url current)
  /\ fst (Weather.gotoWithLoad url timeout sc st)
     = match url_hostname url with
       | None => Throw Weather.invalid_url
       | Some hostname =>
           if includes current hostname then Ret tt else Throw e
       end
  /\ fst (PCPartPicker.safeGoto url timeout sc st) = Ret tt
  /\ fst (Wikipedia.safeGoto url label timeout sc st) = Throw e.
Proof.
  intros He <-. repeat split.
  - apply zillow_safeGoto_rejected with (e := e). exact He.
  - apply weather_gotoWithLoad_rejected. exact He.
  - apply pcpp_safeGoto_returns.
  - apply wikipedia_safeGoto_rejected. exact He.
Qed.

End Navigation.

(** C4, counterexample.  PCPartPicker's [safeGoto], sent to the login page
    while the page sits on another host and [page.goto] times out: the helper
    returns normally and the flow carries on.  Wikipedia's [safeGoto], with
    the page already on the target's host: the rejection still leaves the
    helper. *)
Lemma navigation_helpers_disagree :
  let target := "https://pcpartpicker.com/accounts/login/" in
  let elsewhere := "https://elsewhere.example/blocked" in
  let wiki := "https://en.wikipedia.org/w/index.php?title=Special:UserLogin" in
  same_host (U := plain_urls) target elsewhere = false
  /\ fst (PCPartPicker.safeGoto target 25000
            (fun n => if Nat.eqb n 0 then reject_with timeout_error
                      else at_url elsewhere)
            (init_state ""))
     = Ret tt
  /\ same_host (U := plain_urls) wiki "https://en.wikipedia.org/wiki/Main_Page" = true
  /\ fst (Wikipedia.safeGoto wiki "Login page" 45000
            (fun n => if Nat.eqb n 0 then reject_with timeout_error
                      else at_url "https://en.wikipedia.org/wiki/Main_Page")
            (init_state ""))
     = Throw timeout_error.
Proof. repeat split; vm_compute; reflexivity. Qed.

Lemma navigation_after_rejected_goto_witness :
  let url := "https://www.zillow.com/myzillow/profile/" in
  let sc := fun n => if Nat.eqb n 0 then reject_with timeout_error
                     else at_url "https://www.zillow.com/" in
  fst (Zillow.safeGoto (U := plain_urls) url "Open My Profile" 30000 sc (init_state ""))
  = Ret true
  /\ fst (Weather.gotoWithLoad (U := plain_urls) url 30000 sc (init_state "")) = Ret tt
  /\ fst (PCPartPicker.safeGoto url 30000 sc (init_state "")) = Ret tt
  /\ fst (Wikipedia.safeGoto url "Open My Profile" 30000 sc (init_state ""))
     = Throw timeout_error.
Proof.
  intros url sc.
  apply (navigation_after_rejected_goto (U := plain_urls) url "Open My Profile"
           30000%N sc (init_state "") timeout_error "https://www.zillow.com/");
    reflexivity.
Defined.

(** * The action retrier *)


(** One failed attempt: the click, the warning and the 750 ms pause. *)
Lemma retry_failed_attempt sel rem i lastErr sc st e :
  ans_exn (sc (length (trace st))) = Some e ->
  Weather.clickWithRetry_from sel (S rem) i lastErr sc st
  = Weather.clickWithRetry_from sel rem (S i) (Some e) sc
      {| trace := (trace st
                   ++ [(Click (First (Css sel)) None (Some 15000%N), Some e);
                       (WaitForTimeout 750, None)])%list;
         console := (console st
                     ++ [(WarnL, "[clickWithRetry] Attempt "
                                 +:+ string_of_nat (i + 1) +:+ " failed for "
                                 +:+ sel +:+ ". Retrying...")])%list;
         totpCode := totpCode st |}.
Proof.
  intros He. cbn [Weather.clickWithRetry_from].
  unfold bind at 1, settle, do_, bind at 1, call. rewrite He. cbn.
  unfold waitForTimeout, console_warn, console_write, call_total, bind, ret, record.
  cbn. rewrite <- app_assoc. reflexivity.
Qed.

Lemma retry_successful_attempt sel rem i lastErr sc st :
  ans_exn (sc (length (trace st))) = None ->
  Weather.clickWithRetry_from sel (S rem) i lastErr sc st
  = (Ret tt, record (Click (First (Css sel)) None (Some 15000%N)) None st).
Proof.
  intros He. cbn [Weather.clickWithRetry_from].
  unfold bind at 1, settle, do_, bind at 1, call. rewrite He. reflexivity.
Qed.





Lemma includes_empty s : includes s "" = true.
Proof. destruct s; reflexivity. Qed.

Lemma includes_message_or_self p e :
  includes (p +:+ message_or_self e) (exn_message e) = true.
Proof.
  destruct e as [n m | s]; cbn [message_or_self exn_message].
  - destruct (String.eqb m "") eqn:E.
    + apply String.eqb_eq in E. subst m. apply includes_empty.
    + apply includes_append_r.
  - apply includes_empty.
Qed.

Lemma includes_exn_toString p e :
  includes (p +:+ exn_toString e) (exn_message e) = true.
Proof.
  destruct e as [n m | s]; cbn [exn_toString exn_message].
  - destruct (String.eqb m "") eqn:E.
    + apply String.eqb_eq in E. subst m. apply includes_empty.
    + destruct (String.eqb n ""); [apply includes_append_r |].
      apply includes_spec. exists (p +:+ n +:+ ": "), "".
      rewrite append_nil_r, !append_assoc. reflexivity.
  - apply includes_empty.
Qed.

Section Boundary.
Context {U : UrlApi}.

Lemma provider_op_acquire env : provider_op (acquire_op env) = true.
Proof. unfold acquire_op. destruct (negb _); reflexivity. Qed.

(** What every [catch] handler does with the value it is handed. *)
Lemma flow_on_error_run f e sc st :
  exists msg st',
    flow_on_error f e sc st
    = (Ret {| success := false; message := msg |}, st')
    /\ trace st' = trace st
    /\ includes msg (exn_message e) = true.
Proof.
  destruct f; cbn [flow_on_error]; eexists; eexists;
    (split; [reflexivity |]); (split; [reflexivity |]);
    first [ apply includes_message_or_self | apply includes_exn_toString ].
Qed.

(** C1 (as amended).  In every flow, when the provider has handed over the
    page and some required input is absent or empty, the run returns a result
    with [success = false] whose message holds the name of every missing
    input. *)
Theorem missing_inputs_all_reported f env sc :
  provider_ok sc ->
  input_missing f env = true ->
  exists r st,
    execute f env sc = (Ret r, st)
    /\ success r = false
    /\ forall n v, In (n, v) (required_inputs f env) ->
                   truthy v = false -> includes (message r) n = true.
Proof.
  intros Hp Hm. destruct (execute_missing f env sc Hp Hm) as (msg & E & Hn).
  eexists. eexists. split; [exact E |]. split; [reflexivity | exact Hn].
Qed.

(** C5 (as amended).  In every flow, a run with a missing input issues no
    call on the page: whatever the provider answers, the only calls made are
    the provider's own (connect or create, then the lookup of the first
    page), and they are made before validation.  When they resolve, the trace
    is exactly those two calls and the run returns a failure. *)
Theorem missing_inputs_no_page_call f env sc :
  input_missing f env = true ->
  Forall (fun ev => provider_op (fst ev) = true) (trace (snd (execute f env sc)))
  /\ (provider_ok sc ->
      trace (snd (execute f env sc)) = [(acquire_op env, None); (FirstPage, None)]
      /\ exists msg,
           fst (execute f env sc) = Ret {| success := false; message := msg |}).
Proof.
  intros Hm. split.
  - destruct (ans_exn (sc 0)) as [e0 |] eqn:H0.
    { rewrite (execute_provider_down f env sc e0 H0). cbn.
      repeat constructor. apply provider_op_acquire. }
    destruct (ans_exn (sc 1)) as [e1 |] eqn:H1.
    { rewrite (execute_no_page f env sc e1 H0 H1). cbn.
      repeat constructor. apply provider_op_acquire. }
    destruct (execute_missing f env sc (conj H0 H1) Hm) as (msg & E & _).
    rewrite E. cbn. repeat constructor. apply provider_op_acquire.
  - intros Hp. destruct (execute_missing f env sc Hp Hm) as (msg & E & _).
    rewrite E. split; [reflexivity |]. exists msg. reflexivity.
Qed.

(** C2 (as amended).  In every flow, once the provider has handed over the
    page the run returns a result and lets nothing escape; and whatever the
    [try] block throws comes back as a failure whose message holds the
    thrown value's message. *)
Theorem exceptions_become_failures f env sc :
  provider_ok sc ->
  (exists r st, execute f env sc = (Ret r, st))
  /\ (input_missing f env = false ->
      forall e st1,
        flow_steps f env sc (acquired f env) = (Throw e, st1) ->
        exists msg st,
          execute f env sc = (Ret {| success := false; message := msg |}, st)
          /\ includes msg (exn_message e) = true).
Proof.
  intros Hp. split.
  - destruct (input_missing f env) eqn:Hm.
    + destruct (execute_missing f env sc Hp Hm) as (msg & E & _).
      eexists. eexists. exact E.
    + rewrite (execute_valid f env sc Hp Hm). unfold try_catch.
      destruct (flow_steps f env sc (acquired f env)) as [[r | e] st1].
      * exists r, st1. reflexivity.
      * destruct (flow_on_error_run f e sc st1) as (msg & st' & E & _).
        eexists. eexists. exact E.
  - intros Hm e st1 Hthrow.
    rewrite (execute_valid f env sc Hp Hm).
    rewrite (try_catch_throw_eq _ _ _ _ _ _ Hthrow).
    destruct (flow_on_error_run f e sc st1) as (msg & st' & E & _ & Hi).
    exists msg, st'. split; assumption.
Qed.

End Boundary.

(** C1, counterexample.  With no input configured at all and the provider
    unreachable, the Fandom flow does not return a result: the rejection of
    [anchorClient.browser.create()] leaves the flow. *)
Lemma missing_inputs_provider_down :
  input_missing FandomF ∅ = true
  /\ fst (execute (U := plain_urls) FandomF ∅
            (script_of [(0, reject_with provider_error)]))
     = Throw provider_error.
Proof. split; vm_compute; reflexivity. Qed.

Lemma missing_inputs_all_reported_witness :
  exists r st,
    execute (U := plain_urls) PCPartPickerF
      (<["ANCHOR_PASSWORD" := "P@ss1"]> ∅) (script_of [])
    = (Ret r, st)
    /\ success r = false
    /\ forall n v,
         In (n, v) (required_inputs PCPartPickerF
                      (<["ANCHOR_PASSWORD" := "P@ss1"]> ∅)) ->
         truthy v = false -> includes (message r) n = true.
Proof.
  apply (missing_inputs_all_reported (U := plain_urls) PCPartPickerF
           (<["ANCHOR_PASSWORD" := "P@ss1"]> ∅) (script_of [])).
  - split; reflexivity.
  - vm_compute. reflexivity.
Defined.

(** C5, counterexample.  The Fandom flow with no input configured: by the
    time the failure is returned a browser session has been created and its
    first page looked up. *)
Lemma missing_inputs_session_created :
  input_missing FandomF ∅ = true
  /\ execute (U := plain_urls) FandomF ∅ (script_of [])
     = (Ret {| success := false;
               message := "Missing required inputs: ANCHOR_FANDOM_USERNAME, ANCHOR_FANDOM_PASSWORD, ANCHOR_FANDOM_NEW_PASSWORD" |},
        {| trace := [(BrowserCreate, None); (FirstPage, None)];
           console := [(ErrorL, "Missing required inputs: ANCHOR_FANDOM_USERNAME, ANCHOR_FANDOM_PASSWORD, ANCHOR_FANDOM_NEW_PASSWORD")];
           totpCode := "" |}).
Proof. split; vm_compute; reflexivity. Qed.

Lemma missing_inputs_no_page_call_witness :
  Forall (fun ev => provider_op (fst ev) = true)
    (trace (snd (execute (U := plain_urls) ZillowF
                   (<["ANCHOR_SESSION_ID" := "s-1"]> ∅) (script_of []))))
  /\ (provider_ok (script_of []) ->
      trace (snd (execute (U := plain_urls) ZillowF
                    (<["ANCHOR_SESSION_ID" := "s-1"]> ∅) (script_of [])))
      = [(acquire_op (<["ANCHOR_SESSION_ID" := "s-1"]> ∅), None); (FirstPage, None)]
      /\ exists msg,
           fst (execute (U := plain_urls) ZillowF
                  (<["ANCHOR_SESSION_ID" := "s-1"]> ∅) (script_of []))
           = Ret {| success := false; message := msg |}).
Proof.
  apply (missing_inputs_no_page_call (U := plain_urls) ZillowF
           (<["ANCHOR_SESSION_ID" := "s-1"]> ∅) (script_of [])).
  vm_compute. reflexivity.
Defined.

(** C2, counterexample.  The Zillow flow with every input present and a
    session that has no page: the [TypeError] of
    [browser.contexts()[0].pages()[0]] is raised before the [try] block and
    reaches the caller. *)
Lemma exception_escapes_before_try :
  input_missing ZillowF alice_env = false
  /\ fst (execute (U := plain_urls) ZillowF alice_env
            (script_of [(1, reject_with no_page_error)]))
     = Throw no_page_error.
Proof. split; vm_compute; reflexivity. Qed.

Lemma exceptions_become_failures_witness :
  (exists r st,
     execute (U := plain_urls) WikipediaF alice_env
       (script_of [(2, reject_with timeout_error)]) = (Ret r, st))
  /\ (exists msg st,
        execute (U := plain_urls) WikipediaF alice_env
          (script_of [(2, reject_with timeout_error)])
        = (Ret {| success := false; message := msg |}, st)
        /\ includes msg (exn_message timeout_error) = true).
Proof.
  destruct (exceptions_become_failures (U := plain_urls) WikipediaF alice_env
              (script_of [(2, reject_with timeout_error)])) as [H1 H2].
  - split; reflexivity.
  - split; [exact H1 |]. eapply H2.
    + vm_compute. reflexivity.
    + vm_compute. reflexivity.
Defined.

(** * PCPartPicker: the verification step *)

(** The outcome of step 3, by the URL and the answer to the text probe. *)
Lemma pcpp_verify_run sc st :
  fst (PCPartPicker.verify sc st)
  = if includes (ans_str (sc (length (trace st)))) "/accounts/password/change/done/"
       || match ans_exn (sc (S (length (trace st)))) with
          | Some _ => false
          | None => ans_bool (sc (S (length (trace st))))
          end
    then Ret {| success := true; message := "Password changed successfully." |}
    else Ret {| success := false;
                message := "Password change may have failed: success URL or confirmation text not detected." |}.
Proof.
  unfold PCPartPicker.verify, PCPartPicker.isVisible_or_false. run.
  destruct (ans_exn (sc (S (length (trace st))))) as [e |]; run.
  - rewrite orb_false_r.
    destruct (includes _ "/accounts/password/change/done/"); reflexivity.
  - destruct (includes _ "/accounts/password/change/done/"
              || ans_bool (sc (S (length (trace st))))); reflexivity.
Qed.

Section Verification.
Context {U : UrlApi}.

(** C3 (as amended).  In a PCPartPicker run that reaches the verification
    step: if the final URL holds [/accounts/password/change/done/] the result
    is a success, whatever the text probe says; if the final URL does not
    hold [/done/] and the confirmation text is not seen, the result is a
    failure whose message holds "may have failed". *)
Theorem pcpp_verification env sc loggedIn stillOnLogin st1 st2 :
  provider_ok sc ->
  input_missing PCPartPickerF env = false ->
  PCPartPicker.log_in (PCPartPicker.INPUTS env) sc (acquired PCPartPickerF env)
  = (Ret (loggedIn, stillOnLogin), st1) ->
  negb loggedIn && stillOnLogin = false ->
  PCPartPicker.change_password (PCPartPicker.INPUTS env) sc st1 = (Ret tt, st2) ->
  let url := ans_str (sc (length (trace st2))) in
  let text := sc (S (length (trace st2))) in
  (includes url "/accounts/password/change/done/" = true ->
   fst (execute PCPartPickerF env sc)
   = Ret {| success := true; message := "Password changed successfully." |})
  /\ (includes url "/done/" = false ->
      ans_exn text <> None \/ ans_bool text = false ->
      exists msg,
        fst (execute PCPartPickerF env sc)
        = Ret {| success := false; message := msg |}
        /\ includes msg "may have failed" = true).
Proof.
  intros Hp Hm Hlogin Hcheck Hchange url text.
  assert (E : fst (execute PCPartPickerF env sc) = fst (PCPartPicker.verify sc st2)).
  { rewrite (execute_valid PCPartPickerF env sc Hp Hm).
    cbn [flow_steps flow_on_error]. unfold PCPartPicker.steps.
    unfold try_catch.
    rewrite (bind_ret_eq _ _ _ _ _ _ Hlogin). cbv beta iota. rewrite Hcheck.
    rewrite (bind_ret_eq _ _ _ _ _ _ Hchange).
    pose proof (pcpp_verify_run sc st2) as Hv.
    destruct (PCPartPicker.verify sc st2) as [[r | e] st3]; [reflexivity |].
    cbn [fst] in Hv. destruct (_ || _) in Hv; discriminate Hv. }
  rewrite E, pcpp_verify_run. fold url. fold text. split.
  - intros Hurl. rewrite Hurl. reflexivity.
  - intros Hurl Htext.
    assert (Hfull : includes url "/accounts/password/change/done/" = false).
    { destruct (includes url "/accounts/password/change/done/") eqn:Hi; [| reflexivity].
      rewrite <- Hurl. symmetry.
      apply (includes_suffix_of_needle url "/accounts/password/change" "/done/").
      exact Hi. }
    rewrite Hfull.
    assert (Hno : match ans_exn text with
                  | Some _ => false
                  | None => ans_bool text
                  end = false).
    { destruct (ans_exn text); [reflexivity |].
      destruct Htext as [Hx | Hb]; [congruence | exact Hb]. }
    rewrite Hno. cbn [orb]. eexists. split; [reflexivity |].
    vm_compute. reflexivity.
Qed.

End Verification.

(** C3, counterexample.  The PCPartPicker flow for [alice], every call
    resolving, the page ending on a URL that holds [/done/] without being
    the change-password confirmation path, and the confirmation text not
    visible: the run reaches the text probe of the verification step and
    returns a failure. *)
Lemma pcpp_done_url_not_enough :
  let url := "https://pcpartpicker.com/done/" in
  let run := execute (U := plain_urls) PCPartPickerF alice_env (idle_at url) in
  includes url "/done/" = true
  /\ List.last (trace (snd run)) (PageUrl, None)
     = (IsVisible (First (Css "text=Your password has been changed.")) None, None)
  /\ fst run
     = Ret {| success := false;
              message := "Password change may have failed: success URL or confirmation text not detected." |}.
Proof. repeat split; vm_compute; reflexivity. Qed.

(** The run that ends on the confirmation page, and the run that stays on
    the form; the text is seen in neither. *)
Lemma pcpp_verification_witness :
  fst (execute (U := plain_urls) PCPartPickerF alice_env
         (idle_at "https://pcpartpicker.com/accounts/password/change/done/"))
  = Ret {| success := true; message := "Password changed successfully." |}
  /\ exists msg,
       fst (execute (U := plain_urls) PCPartPickerF alice_env
              (idle_at "https://pcpartpicker.com/accounts/password/change/"))
       = Ret {| success := false; message := msg |}
       /\ includes msg "may have failed" = true.
Proof.
  split.
  - eapply (pcpp_verification (U := plain_urls) alice_env
              (idle_at "https://pcpartpicker.com/accounts/password/change/done/")
              false false).
    + split; reflexivity.
    + vm_compute. reflexivity.
    + vm_compute. reflexivity.
    + reflexivity.
    + vm_compute. reflexivity.
    + vm_compute. reflexivity.
  - eapply (pcpp_verification (U := plain_urls) alice_env
              (idle_at "https://pcpartpicker.com/accounts/password/change/")
              false false).
    + split; reflexivity.
    + vm_compute. reflexivity.
    + vm_compute. reflexivity.
    + reflexivity.
    + vm_compute. reflexivity.
    + vm_compute. reflexivity.
    + right. reflexivity.
Defined.

(** * Reaching a call *)

Section Reach.
Context {A B : Type}.

Lemma emits_not_in ev (m : M A) sc st :
  emits (fun x => x <> ev) m ->
  ~ In ev (trace st) -> ~ In ev (trace (snd (m sc st))).
Proof.
  intros Hm Hst. destruct (Hm sc st) as (l & E & F). rewrite E.
  intros Hin. apply in_app_or in Hin. destruct Hin as [Hin | Hin].
  - exact (Hst Hin).
  - rewrite List.Forall_forall in F. exact (F ev Hin eq_refl).
Qed.

Lemma when_reached_skip ev Q (m : M A) :
  emits (fun x => x <> ev) m -> when_reached ev Q m.
Proof.
  intros Hm sc st Hst Hin. exfalso.
  exact (emits_not_in ev m sc st Hm Hst Hin).
Qed.

Lemma when_reached_bind ev Q (m : M A) (k : A -> M B) :
  emits (fun x => x <> ev) m ->
  (forall a, when_reached ev Q (k a)) ->
  when_reached ev Q (bind m k).
Proof.
  intros Hm Hk sc st Hst. pose proof (emits_not_in ev m sc st Hm Hst) as Hst1.
  unfold bind. destruct (m sc st) as [[a | e] st1]; cbn [snd fst] in *.
  - apply Hk. exact Hst1.
  - intros Hin. exfalso. exact (Hst1 Hin).
Qed.

Lemma when_reached_here op Q (k : unit -> M B) :
  (forall sc st, Q (fst (k tt sc st))) ->
  when_reached (op, None) Q (bind (do_ op) k).
Proof.
  intros Hk sc st Hst. unfold bind at 1, do_, bind, call.
  destruct (ans_exn (sc (length (trace st)))) as [e |]; cbn [ret fst snd].
  - cbn [record trace]. intros Hin. exfalso.
    apply in_app_or in Hin. destruct Hin as [Hin | [Hin | []]].
    + exact (Hst Hin).
    + discriminate Hin.
  - intros _. apply Hk.
Qed.

Lemma when_reached_try_catch ev (Q : Res A -> Prop) (m : M A) h :
  (forall e, ~ Q (Throw e)) ->
  (forall e, emits (fun _ => False) (h e)) ->
  when_reached ev Q m ->
  when_reached ev Q (try_catch m h).
Proof.
  intros HQ Hh Hm sc st Hst. specialize (Hm sc st Hst).
  unfold try_catch. destruct (m sc st) as [[a | e] st1]; cbn [snd fst] in *.
  - exact Hm.
  - destruct (Hh e sc st1) as (l & E & F). rewrite E.
    destruct l as [| x l]; [| inversion F; contradiction].
    rewrite app_nil_r. intros Hin. exfalso. exact (HQ e (Hm Hin)).
Qed.

End Reach.

(** * Zillow: what follows the Apply click *)

Ltac emits_auto :=
  repeat (first [ emits_step | progress flow_unfold ]).

Ltac total_auto :=
  repeat (first [ total_step | progress flow_unfold ]).

Section AfterApply.
Context {U : UrlApi}.

Lemma zillow_safeGoto_total url label timeout :
  total (Zillow.safeGoto url label timeout).
Proof. unfold Zillow.safeGoto. total_auto. Qed.

(** Once the Apply click has resolved nothing can turn the run into a
    failure: both post-submit waits drop their rejection, and so does the
    logout navigation. *)
Lemma zillow_after_apply I sc st :
  fst ((promise_race_swallowed
          (swallow (call (WaitForURL "www.zillow.com" (Some 15000%N))))
          (swallow (call (WaitFor Zillow.passwordDialog Detached (Some 15000%N)))) ;;
        Zillow.logout_and_finish I) sc st)
  = Ret zillow_success.
Proof.
  assert (Hrace : total (promise_race_swallowed
          (swallow (call (WaitForURL "www.zillow.com" (Some 15000%N))))
          (swallow (call (WaitFor Zillow.passwordDialog Detached (Some 15000%N))))))
    by total_auto.
  destruct (Hrace sc st) as ([] & st1 & E1).
  rewrite (bind_ret_eq _ _ _ _ _ _ E1).
  unfold Zillow.logout_and_finish.
  destruct (zillow_safeGoto_total (Zillow.logoutUrl I) "Logout" 30000%N sc st1)
    as (ok3 & st2 & E2).
  rewrite (bind_ret_eq _ _ _ _ _ _ E2).
  destruct ok3; reflexivity.
Qed.

Ltac zillow_locators :=
  unfold Zillow.applyBtn, Zillow.dialogForm, Zillow.passwordDialog,
    Zillow.emailInput, Zillow.pwdInput, Zillow.changePwdBtn,
    Zillow.currentPwdInput, Zillow.newPwdInput, Zillow.confirmPwdInput in *.

(** No call but the Apply click itself is the Apply click. *)
Ltac not_apply_click :=
  unfold Zillow.safeGoto, Zillow.expectVisible, Zillow.failure;
  emits_auto;
  let E := fresh in intros E; zillow_locators; discriminate E.

Ltac reach_step :=
  lazymatch goal with
  | |- when_reached _ _ (bind _ _) =>
      first [ apply when_reached_here
            | apply when_reached_bind; [solve [not_apply_click] | intros ?] ]
  | |- when_reached _ _ (if ?b then _ else _) => destruct b
  | |- when_reached _ _ _ => apply when_reached_skip; solve [not_apply_click]
  end.

Lemma zillow_steps_reached I :
  when_reached zillow_apply_clicked (fun r => r = Ret zillow_success)
    (Zillow.steps I).
Proof.
  unfold Zillow.steps, zillow_apply_clicked.
  repeat reach_step.
  intros sc st. apply zillow_after_apply.
Qed.

Lemma acquire_op_not_click env l d t (x y : option Exn) :
  (acquire_op env, x) <> (Click l d t, y).
Proof. unfold acquire_op. destruct (negb _); discriminate. Qed.

(** C10.  A Zillow run whose trace holds the Apply click of the
    change-password dialog, resolved, returns the success result: neither
    post-submit wait, nor the logout navigation, can change the outcome after
    that click. *)
Theorem zillow_success_after_apply env sc :
  In zillow_apply_clicked (trace (snd (execute ZillowF env sc))) ->
  fst (execute ZillowF env sc) = Ret zillow_success.
Proof.
  destruct (ans_exn (sc 0)) as [e0 |] eqn:H0.
  { rewrite (execute_provider_down ZillowF env sc e0 H0). cbn.
    intros [E | []]. exfalso. exact (acquire_op_not_click _ _ _ _ _ _ E). }
  destruct (ans_exn (sc 1)) as [e1 |] eqn:H1.
  { rewrite (execute_no_page ZillowF env sc e1 H0 H1). cbn.
    intros [E | [E | []]]; [| discriminate E].
    exfalso. exact (acquire_op_not_click _ _ _ _ _ _ E). }
  assert (Hacq : ~ In zillow_apply_clicked (trace (acquired ZillowF env))).
  { cbn. intros [E | [E | []]]; [| discriminate E].
    exact (acquire_op_not_click _ _ _ _ _ _ E). }
  destruct (input_missing ZillowF env) eqn:Hm.
  { destruct (execute_missing ZillowF env sc (conj H0 H1) Hm) as (msg & E & _).
    rewrite E. cbn [snd log_error trace]. intros Hin. exfalso. exact (Hacq Hin). }
  rewrite (execute_valid ZillowF env sc (conj H0 H1) Hm).
  apply (when_reached_try_catch zillow_apply_clicked
           (fun r => r = Ret zillow_success)); [| | | exact Hacq].
  - intros e. discriminate.
  - intros e. cbn [flow_on_error]. unfold Zillow.on_error. emits_auto.
  - cbn [flow_steps]. apply zillow_steps_reached.
Qed.

End AfterApply.

(** The post-submit waits both time out and the logout navigation fails with
    the page stranded on another host: the run still reports success. *)
Lemma zillow_success_after_apply_witness :
  In (WaitForURL "www.zillow.com" (Some 15000%N), Some timeout_error)
     (trace (snd (execute (U := plain_urls) ZillowF alice_env zillow_no_signal)))
  /\ In (WaitFor Zillow.passwordDialog Detached (Some 15000%N), Some timeout_error)
        (trace (snd (execute (U := plain_urls) ZillowF alice_env zillow_no_signal)))
  /\ In (ErrorL, "Logout navigation experienced an issue, but continuing to finalize.")
        (console (snd (execute (U := plain_urls) ZillowF alice_env zillow_no_signal)))
  /\ fst (execute (U := plain_urls) ZillowF alice_env zillow_no_signal)
     = Ret zillow_success.
Proof.
  split; [| split; [| split]].
  - vm_compute. do 20 right. left. reflexivity.
  - vm_compute. do 21 right. left. reflexivity.
  - vm_compute. repeat (first [ left; reflexivity | right ]).
  - apply (zillow_success_after_apply (U := plain_urls) alice_env zillow_no_signal).
    vm_compute. do 19 right. left. reflexivity.
Defined.

(** * Fandom: re-authentication *)


Section Passwords.
Context {A B : Type}.




End Passwords.









Lemma bind_console {A} lv line (k : unit -> M A) sc st :
  bind (console_write lv line) k sc st
  = k tt sc {| trace := trace st;
               console := (console st ++ [(lv, line)])%list;
               totpCode := totpCode st |}.
Proof. reflexivity. Qed.









Section Reauthentication.
Context {U : UrlApi}.




End Reauthentication.



(** * Timeouts at the call sites *)

Lemma clickWithRetry_from_emits P sel rem : forall i lastErr,
  (forall x, P (Click (First (Css sel)) None (Some 15000%N), x)) ->
  P (WaitForTimeout 750, None) ->
  emits P (Weather.clickWithRetry_from sel rem i lastErr).
Proof.
  induction rem as [| rem IH]; intros i lastErr Hc Hw;
    cbn [Weather.clickWithRetry_from]; emits_auto; auto.
Qed.

Lemma clickWithRetry_emits P sel attempts :
  (forall x, P (Click (First (Css sel)) None (Some 15000%N), x)) ->
  P (WaitForTimeout 750, None) ->
  emits P (Weather.clickWithRetry sel attempts).
Proof. intros. apply clickWithRetry_from_emits; assumption. Qed.

Ltac unfold_flows :=
  unfold Fandom.FandomChangePasswordFlow, Fandom.steps, Fandom.change_password,
    Fandom.reauth, Fandom.logout_and_finish, Fandom.signIn, Fandom.safeClick,
    Fandom.on_error, Fandom.getAnchorBrowser, Fandom.reauth_probe,
    PCPartPicker.pcppChangePasswordTask, PCPartPicker.steps, PCPartPicker.log_in,
    PCPartPicker.change_password, PCPartPicker.verify, PCPartPicker.safeGoto,
    PCPartPicker.waitForVisible, PCPartPicker.isVisible_or_false,
    PCPartPicker.on_error, PCPartPicker.getAnchorBrowser,
    Zillow.zillowChangePasswordFlow, Zillow.steps, Zillow.logout_and_finish,
    Zillow.safeGoto, Zillow.expectVisible, Zillow.failure, Zillow.on_error,
    Zillow.getAnchorBrowser,
    Weather.WeatherComChangePassword, Weather.steps, Weather.log_in,
    Weather.open_settings, Weather.verify, Weather.gotoWithLoad,
    Weather.waitVisible, Weather.fillInput, Weather.isLoggedIn,
    Weather.on_error, Weather.getAnchorBrowser,
    Wikipedia.ChangeWikipediaPassword, Wikipedia.steps, Wikipedia.login,
    Wikipedia.navigateToChangePassword, Wikipedia.changePassword,
    Wikipedia.verifyIdentityIfPrompted, Wikipedia.handleTwoFactorIfPresent,
    Wikipedia.ensureLoggedIn, Wikipedia.waitVisible, Wikipedia.safeGoto,
    Wikipedia.safeWaitForLoad, Wikipedia.on_error, Wikipedia.getAnchorBrowser.

(** Walks a whole flow, leaving one side condition per call site. *)
Ltac emits_flow :=
  repeat (first [ emits_step
                | apply clickWithRetry_emits; [intros ? |]
                | progress flow_unfold
                | progress unfold_flows ]).

Section Timeouts.
Context {U : UrlApi}.







End Timeouts.



(** * Runs that differ in their credentials only *)


Section Agreement.
Context {A B : Type}.






End Agreement.















Section Credentials.
Context {U : UrlApi}.







End Credentials.



(** * Masks *)

Lemma repeat_star_only_stars n : only_stars (repeat_star n) = true.
Proof. induction n as [| n IH]; [reflexivity | exact IH]. Qed.

Lemma repeat_star_length n : String.length (repeat_star n) = n.
Proof. induction n as [| n IH]; [reflexivity | cbn; rewrite IH; reflexivity]. Qed.

(** X1.  [maskSecret] never shows a character of the secret: its result is
    made of asterisks only.  It is empty for an absent or empty value;
    otherwise it is at least 4 and at most 12 long, and exactly as long as
    the secret when the secret has between 4 and 12 characters. *)
Theorem maskSecret_shape (value : jsval) :
  only_stars (Zillow.maskSecret value) = true
  /\ (truthy value = false -> Zillow.maskSecret value = "")
  /\ (truthy value = true ->
      4 <= String.length (Zillow.maskSecret value) <= 12)
  /\ (truthy value = true ->
      4 <= String.length (the value) <= 12 ->
      String.length (Zillow.maskSecret value) = String.length (the value)).
Proof.
  unfold Zillow.maskSecret. destruct (truthy value); cbn [negb].
  - rewrite repeat_star_length. repeat split; try lia; try discriminate.
    apply repeat_star_only_stars.
  - repeat split; try discriminate.
Qed.

Lemma maskSecret_shape_witness :
  Zillow.maskSecret None = ""
  /\ 4 <= String.length (Zillow.maskSecret (Some "ab")) <= 12
  /\ String.length (Zillow.maskSecret (Some "P@ss2!")) = 6.
Proof.
  split; [| split].
  - apply (maskSecret_shape None). reflexivity.
  - apply (maskSecret_shape (Some "ab")). reflexivity.
  - apply (maskSecret_shape (Some "P@ss2!")); [reflexivity | cbn; lia].
Defined.

(** * Base URLs *)

Lemma strip_trailing_slash_added s : strip_trailing_slash (s +:+ "/") = s.
Proof.
  induction s as [| c s IH]; [reflexivity |].
  rewrite append_cons. cbn [strip_trailing_slash]. rewrite IH.
  destruct s; reflexivity.
Qed.

Lemma strip_trailing_slash_none s :
  ends_with_slash s = false -> strip_trailing_slash s = s.
Proof.
  induction s as [| c s IH]; [reflexivity |].
  cbn [ends_with_slash strip_trailing_slash]. destruct s as [| d s].
  - intros ->. reflexivity.
  - intros H. rewrite (IH H). reflexivity.
Qed.

(** X2.  [buildUrls] drops exactly one trailing slash of the base URL: a
    base written with a final slash gives the three wiki URLs of the base
    written without it, so the URLs never hold a doubled slash because of
    the way the base was written. *)
Theorem buildUrls_trailing_slash (base : string) :
  Fandom.buildUrls (base +:+ "/")
  = {| Fandom.loginUrl := base +:+ "/wiki/Special:UserLogin";
       Fandom.changePasswordUrl := base +:+ "/wiki/Special:ChangePassword";
       Fandom.logoutUrl := base +:+ "/wiki/Special:UserLogout" |}
  /\ (ends_with_slash base = false ->
      Fandom.buildUrls base = Fandom.buildUrls (base +:+ "/")).
Proof.
  unfold Fandom.buildUrls. rewrite strip_trailing_slash_added. split.
  - reflexivity.
  - intros H. rewrite (strip_trailing_slash_none base H). reflexivity.
Qed.

Lemma buildUrls_trailing_slash_witness :
  Fandom.buildUrls "https://community.fandom.com"
  = Fandom.buildUrls "https://community.fandom.com/".
Proof.
  apply (buildUrls_trailing_slash "https://community.fandom.com").
  reflexivity.
Defined.

(** * What a successful run has done *)

Section Yields.
Context {A B : Type}.

Lemma yields_of_emits (C : A -> Prop) (m : M A) :
  emits (fun _ => True) m -> yields C [] m.
Proof.
  intros Hm sc st. destruct (Hm sc st) as (l & E & _).
  exists l. split; [exact E |]. intros. apply sublist_nil_l.
Qed.

Lemma yields_bind (C : B -> Prop) l1 l2 (m : M A) (k : A -> M B) :
  yields (fun _ => True) l1 m -> (forall a, yields C l2 (k a)) ->
  yields C (l1 ++ l2) (bind m k).
Proof.
  intros Hm Hk sc st. destruct (Hm sc st) as (l1' & E1 & S1). unfold bind.
  destruct (m sc st) as [[a | e] st1]; cbn [fst snd] in *.
  - destruct (Hk a sc st1) as (l2' & E2 & S2).
    exists (l1' ++ l2')%list. split.
    + rewrite E2, E1, app_assoc. reflexivity.
    + intros b Hb Cb. apply sublist_app; [apply (S1 a); auto | apply (S2 b); auto].
  - exists l1'. split; [exact E1 |]. intros b Hb. discriminate Hb.
Qed.

Lemma yields_cons (C : B -> Prop) ev l (m : M A) (k : A -> M B) :
  yields (fun _ => True) [ev] m -> (forall a, yields C l (k a)) ->
  yields C (ev :: l) (bind m k).
Proof. intros Hm Hk. exact (yields_bind C [ev] l m k Hm Hk). Qed.

Lemma yields_cons2 (C : B -> Prop) ev1 ev2 l (m : M A) (k : A -> M B) :
  yields (fun _ => True) [ev1; ev2] m -> (forall a, yields C l (k a)) ->
  yields C (ev1 :: ev2 :: l) (bind m k).
Proof. intros Hm Hk. exact (yields_bind C [ev1; ev2] l m k Hm Hk). Qed.

Lemma yields_skip (C : B -> Prop) l (m : M A) (k : A -> M B) :
  emits (fun _ => True) m -> (forall a, yields C l (k a)) ->
  yields C l (bind m k).
Proof.
  intros Hm Hk.
  exact (yields_bind C [] l m k (yields_of_emits _ m Hm) Hk).
Qed.

Lemma yields_ret_nil (C : A -> Prop) (a : A) : yields C [] (ret a).
Proof.
  intros sc st. exists []. rewrite app_nil_r. split; [reflexivity |].
  intros. apply sublist_nil_l.
Qed.

Lemma yields_ret_not (C : A -> Prop) l (a : A) : ~ C a -> yields C l (ret a).
Proof.
  intros Hn sc st. exists []. rewrite app_nil_r. split; [reflexivity |].
  intros b Hb Cb. injection Hb as <-. contradiction.
Qed.

Lemma yields_throw (C : A -> Prop) l e : yields C l (throw e).
Proof.
  intros sc st. exists []. rewrite app_nil_r. split; [reflexivity |].
  intros b Hb. discriminate Hb.
Qed.

Lemma yields_try_catch (C : A -> Prop) l (m : M A) h :
  yields C l m -> (forall e, yields C l (h e)) -> yields C l (try_catch m h).
Proof.
  intros Hm Hh sc st. destruct (Hm sc st) as (l1' & E1 & S1). unfold try_catch.
  destruct (m sc st) as [[a | e] st1]; cbn [fst snd] in *.
  - exists l1'. split; [exact E1 | exact S1].
  - destruct (Hh e sc st1) as (l2' & E2 & S2).
    exists (l1' ++ l2')%list. split.
    + rewrite E2, E1, app_assoc. reflexivity.
    + intros b Hb Cb. apply sublist_inserts_l. apply (S2 b); assumption.
Qed.

End Yields.

Lemma bind_assoc_run {A B D} (m : M A) (f : A -> M B) (g : B -> M D) sc st :
  bind (bind m f) g sc st = bind m (fun a => bind (f a) g) sc st.
Proof.
  unfold bind. destruct (m sc st) as [[a | e] st1]; reflexivity.
Qed.

Lemma yields_assoc {A B D} (C : D -> Prop) l (m : M A) (f : A -> M B)
    (g : B -> M D) :
  yields C l (bind m (fun a => bind (f a) g)) -> yields C l (bind (bind m f) g).
Proof. intros H sc st. rewrite bind_assoc_run. apply H. Qed.

(** A call that returns has resolved. *)
Lemma yields_do op : yields (fun _ => True) [(op, None)] (do_ op).
Proof.
  intros sc st. unfold do_, bind, call.
  destruct (ans_exn (sc (length (trace st)))) as [e |]; cbn [ret fst snd].
  - exists [(op, Some e)]. split; [reflexivity |]. intros a Ha. discriminate Ha.
  - exists [(op, None)]. split; [reflexivity |]. intros. reflexivity.
Qed.

(** [Promise.all] returns only if both of its calls resolved. *)
Lemma yields_promise_all2 {A B} l1 l2 (p : M A) (q : M B) :
  yields (fun _ => True) l1 p -> yields (fun _ => True) l2 q ->
  yields (fun _ => True) (l1 ++ l2) (promise_all2 p q).
Proof.
  intros Hp Hq sc st.
  destruct (Hp sc st) as (l1' & E1 & S1).
  unfold promise_all2, bind, settle, calls_so_far, settles_late.
  destruct (p sc st) as [rp st1]; cbn [fst snd] in *.
  destruct (Hq sc st1) as (l2' & E2 & S2).
  destruct (q sc st1) as [rq st2]; cbn [fst snd] in *.
  exists (l1' ++ l2')%list. split.
  - destruct rp, rq; cbn [ret throw snd]; rewrite E2, E1, app_assoc; reflexivity.
  - intros a Ha _. destruct rp as [a1 | e1], rq as [a2 | e2];
      cbn [ret throw fst] in Ha; try discriminate Ha.
    apply sublist_app; [apply (S1 a1); auto | apply (S2 a2); auto].
Qed.

(** [clickWithRetry] returns only if one of its clicks resolved. *)
Lemma yields_clickWithRetry_from sel rem : forall i lastErr,
  yields (fun _ => True) [(Click (First (Css sel)) None (Some 15000%N), None)]
    (Weather.clickWithRetry_from sel rem i lastErr).
Proof.
  induction rem as [| rem IH]; intros i lastErr sc st.
  - cbn [Weather.clickWithRetry_from].
    exists []. rewrite app_nil_r. split; [reflexivity |].
    intros a Ha. discriminate Ha.
  - destruct (ans_exn (sc (length (trace st)))) as [e |] eqn:He.
    + rewrite (retry_failed_attempt _ _ _ _ _ _ _ He).
      match goal with
      | |- context [Weather.clickWithRetry_from _ _ _ _ _ ?s] =>
          destruct (IH (S i) (Some e) sc s) as (l' & E & S')
      end.
      cbn [trace] in E. eexists. split.
      * rewrite E, <- app_assoc. reflexivity.
      * intros a Ha Ca. apply sublist_inserts_l. exact (S' a Ha Ca).
    + rewrite (retry_successful_attempt _ _ _ _ _ _ He).
      eexists. split; [reflexivity |]. intros. reflexivity.
Qed.

Lemma yields_clickWithRetry sel attempts :
  yields (fun _ => True) [(Click (First (Css sel)) None (Some 15000%N), None)]
    (Weather.clickWithRetry sel attempts).
Proof. apply yields_clickWithRetry_from. Qed.

(** The calls a computation is known to have resolved when it returns. *)
Ltac yields_known :=
  first [ apply yields_do
        | apply yields_clickWithRetry
        | apply (yields_promise_all2 [_] [_]); apply yields_do
        | apply (yields_promise_all2 [] [_]);
          [apply yields_of_emits; emits_flow; exact I | apply yields_do] ].

Ltac emits_any := emits_flow; try exact I.

Ltac yields_step :=
  lazymatch goal with
  | |- yields _ _ (bind (bind _ _) _) => apply yields_assoc
  | |- yields _ _ (bind (console_write _ _) _) =>
      apply yields_skip; [apply emits_console | intros ?]
  | |- yields _ (_ :: _ :: _) (bind (promise_all2 (do_ _) (do_ _)) _) =>
      first [ apply yields_cons2; [solve [yields_known] | intros ?]
            | apply yields_skip; [solve [emits_any] | intros ?] ]
  | |- yields _ (_ :: _) (bind _ _) =>
      first [ apply yields_cons; [solve [yields_known] | intros ?]
            | apply yields_skip; [solve [emits_any] | intros ?] ]
  | |- yields _ [] (bind _ _) =>
      apply yields_skip; [solve [emits_any] | intros ?]
  | |- yields _ _ (try_catch _ _) => apply yields_try_catch; [| intros ?]
  | |- yields _ _ (throw _) => apply yields_throw
  | |- yields _ [] (ret _) => apply yields_ret_nil
  | |- yields _ _ (ret _) => apply yields_ret_not; unfold succeeded; discriminate
  | |- yields _ _ (if ?b then _ else _) => destruct b
  | |- yields _ _ (match ?x with _ => _ end) => destruct x
  | |- yields _ _ (let _ := _ in _) => cbv zeta
  end.

Ltac yields_flow :=
  repeat (first [ yields_step
                | progress unfold console_log, console_info, console_warn,
                    console_error
                | progress unfold_flows ]).

Section Submissions.
Context {U : UrlApi}.

Lemma zillow_yields env :
  yields succeeded (resolved (zillow_submission (Zillow.INPUTS env)))
    (run_flow ZillowF env).
Proof. cbn [run_flow]. unfold resolved, zillow_submission. cbn [map]. yields_flow. Qed.

Lemma or_default_the v : or_default v "" = the v.
Proof.
  destruct v as [s |]; [| reflexivity]. cbn.
  destruct (String.eqb_spec s ""); congruence.
Qed.

Lemma or_else_first_truthy a b : or_else a b = first_truthy [a; b].
Proof. reflexivity. Qed.

Lemma or_else_truthy_l a b : truthy a = true -> or_else a b = a.
Proof. unfold or_else. intros ->. reflexivity. Qed.

Lemma some_or_default v :
  truthy v = true -> Some (or_default v "") = v.
Proof.
  destruct v as [s |]; [| discriminate]. cbn.
  destruct (String.eqb s ""); [discriminate | reflexivity].
Qed.

Lemma or_default_not_truthy v : truthy v = false -> or_default v "" = "".
Proof.
  destruct v as [s |]; [| reflexivity]. cbn.
  destruct (String.eqb_spec s ""); [reflexivity | discriminate].
Qed.

Lemma first_truthy_cons v rest :
  rest <> [] ->
  first_truthy (v :: rest) = if truthy v then v else first_truthy rest.
Proof. destruct rest; [congruence | reflexivity]. Qed.

(** [(a || b || '') || (c || d)] is the first truthy of the four. *)
Lemma weather_current_fallback a b c d :
  or_else (Some (or_default (or_else a b) "")) (or_else c d)
  = first_truthy [a; b; c; d].
Proof.
  cbn [first_truthy]. unfold or_else at 2.
  destruct (truthy a) eqn:Ha.
  - rewrite (some_or_default a Ha). unfold or_else at 1. rewrite Ha. reflexivity.
  - destruct (truthy b) eqn:Hb.
    + rewrite (some_or_default b Hb). unfold or_else at 1. rewrite Hb. reflexivity.
    + rewrite (or_default_not_truthy b Hb). reflexivity.
Qed.

(** [(a || b) || c] is the first truthy of the three. *)
Lemma or_else_assoc a b c :
  or_else (or_else a b) c = first_truthy [a; b; c].
Proof.
  cbn [first_truthy]. unfold or_else.
  destruct (truthy a) eqn:Ha; [rewrite Ha |]; reflexivity.
Qed.

Lemma pcpp_yields env :
  yields succeeded
    (resolved (pcpp_submission (pcpp_username env) (pcpp_old_password env)
                 (pcpp_new_password env)))
    (run_flow PCPartPickerF env).
Proof.
  unfold pcpp_username, pcpp_old_password, pcpp_new_password.
  rewrite <- or_else_assoc, <- or_else_first_truthy, <- !or_default_the.
  cbn [run_flow]. unfold resolved, pcpp_submission. cbn [map].
  yields_flow.
Qed.

Lemma weather_yields env :
  yields succeeded
    (resolved (weather_submission (weather_current_password env)
                 (weather_new_password env)))
    (run_flow WeatherF env).
Proof.
  unfold weather_current_password, weather_new_password.
  rewrite <- weather_current_fallback, <- or_else_first_truthy.
  change (or_default (or_else (env !! "ANCHOR_WEATHER_CURRENT_PASSWORD")
                              (env !! "ANCHOR_CURRENT_PASSWORD")) "")
    with (Weather.currentPassword (Weather.INPUTS env)).
  change (or_else (env !! "ANCHOR_WEATHER_PASSWORD") (env !! "ANCHOR_PASSWORD"))
    with (Weather.password (Weather.INPUTS env)).
  change (or_else (env !! "ANCHOR_WEATHER_NEW_PASSWORD")
                  (env !! "ANCHOR_NEW_PASSWORD"))
    with (Weather.newPassword (Weather.INPUTS env)).
  cbn [run_flow]. unfold resolved, weather_submission. cbn [map]. yields_flow.
Qed.

Lemma fandom_yields env :
  let I := Fandom.INPUTS env in
  yields succeeded
    (resolved (fandom_submission (Fandom.buildUrls (Fandom.baseUrl I))
                 (the (Fandom.username I)) (the (Fandom.password I))
                 (the (Fandom.newPassword I))))
    (run_flow FandomF env).
Proof.
  cbn [run_flow]. unfold resolved, fandom_submission. cbn [map app]. yields_flow.
Qed.

Lemma wikipedia_yields env :
  yields succeeded (resolved (wikipedia_submission (Wikipedia.INPUTS env)))
    (run_flow WikipediaF env).
Proof.
  cbn [run_flow]. unfold resolved, wikipedia_submission. cbn [map]. yields_flow.
Qed.

Lemma yields_execute f env l sc r st :
  yields succeeded l (run_flow f env) ->
  execute f env sc = (Ret r, st) -> success r = true ->
  l `sublist_of` trace st.
Proof.
  intros H E Hs. destruct (H sc (start f env)) as (l' & Et & S').
  unfold execute in E. rewrite E in Et, S'. cbn [fst snd] in Et, S'.
  rewrite Et. cbn. apply (S' r); [reflexivity | exact Hs].
Qed.

(** X3. Zillow (zillowChangePasswordFlow): a run that reports success has
    typed the e-mail address and the current password into the login form and
    submitted each with Enter, opened the change-password dialog, filled the
    current password once and the new password twice, and clicked Apply; all
    of these calls resolved, in this order. *)
Theorem zillow_success_submitted env sc r st :
  execute ZillowF env sc = (Ret r, st) -> success r = true ->
  resolved (zillow_submission (Zillow.INPUTS env)) `sublist_of` trace st.
Proof. apply yields_execute, zillow_yields. Qed.

(** X4. PCPartPicker (pcppChangePasswordTask): a run that reports success
    has waited for the login form and its two fields, typed the user name and
    the old password, clicked the login button, waited for the three password
    fields, typed the old password once and the new one twice and clicked
    Change Password, all resolved and in this order.  The user name is the
    first non-empty of ANCHOR_USERNAME, ANCHOR_LOGIN and ANCHOR_EMAIL, the
    old password the first non-empty of ANCHOR_OLD_PASSWORD and
    ANCHOR_PASSWORD. *)
Theorem pcpp_success_submitted env sc r st :
  execute PCPartPickerF env sc = (Ret r, st) -> success r = true ->
  resolved (pcpp_submission (pcpp_username env) (pcpp_old_password env)
              (pcpp_new_password env)) `sublist_of` trace st.
Proof. apply yields_execute, pcpp_yields. Qed.

(** X5. weather.com (WeatherComChangePassword): a run that reports success
    has clicked the Change Password button, cleared and then written each of
    the three dialog fields, and clicked Save, all resolved and in this
    order.  The current password written is the first non-empty of
    ANCHOR_WEATHER_CURRENT_PASSWORD, ANCHOR_CURRENT_PASSWORD,
    ANCHOR_WEATHER_PASSWORD and ANCHOR_PASSWORD: without a current password
    the login password is used. *)
Theorem weather_success_submitted env sc r st :
  execute WeatherF env sc = (Ret r, st) -> success r = true ->
  resolved (weather_submission (weather_current_password env)
              (weather_new_password env)) `sublist_of` trace st.
Proof. apply yields_execute, weather_yields. Qed.

(** X6. Fandom (FandomChangePasswordFlow): a run that reports success has
    opened the login page, signed in with the current password, opened the
    change-password page, typed the new password and pressed Enter, opened the
    logout page and clicked Confirm, all resolved and in this order. *)
Theorem fandom_success_submitted env sc r st :
  execute FandomF env sc = (Ret r, st) -> success r = true ->
  resolved (fandom_submission
              (Fandom.buildUrls (Fandom.baseUrl (Fandom.INPUTS env)))
              (the (Fandom.username (Fandom.INPUTS env)))
              (the (Fandom.password (Fandom.INPUTS env)))
              (the (Fandom.newPassword (Fandom.INPUTS env))))
    `sublist_of` trace st.
Proof. apply yields_execute, fandom_yields. Qed.

(** X7. Wikipedia (ChangeWikipediaPassword): a run that reports success has
    opened the password form by its direct address, and has cleared and then
    typed the new password into both the new-password and the confirmation
    field, all resolved and in this order. *)
Theorem wikipedia_success_submitted env sc r st :
  execute WikipediaF env sc = (Ret r, st) -> success r = true ->
  resolved (wikipedia_submission (Wikipedia.INPUTS env)) `sublist_of` trace st.
Proof. apply yields_execute, wikipedia_yields. Qed.

End Submissions.

Lemma zillow_success_submitted_witness :
  resolved (zillow_submission (Zillow.INPUTS alice_env))
    `sublist_of`
    trace (snd (execute (U := plain_urls) ZillowF alice_env
                  (idle_at "https://www.zillow.com/"))).
Proof.
  apply (zillow_success_submitted (U := plain_urls) alice_env
           (idle_at "https://www.zillow.com/")
           (mkResult true
              "Password change flow executed and logout attempted successfully.")).
  - vm_compute. reflexivity.
  - reflexivity.
Defined.

Lemma pcpp_success_submitted_witness :
  pcpp_username alice_login_env = "alice"
  /\ pcpp_old_password alice_login_env = "P@ss1"
  /\ resolved (pcpp_submission "alice" "P@ss1" "P@ss2!")
       `sublist_of`
       trace (snd (execute (U := plain_urls) PCPartPickerF alice_login_env
                     (welcoming "https://pcpartpicker.com/"))).
Proof.
  split; [vm_compute; reflexivity |]. split; [vm_compute; reflexivity |].
  apply (pcpp_success_submitted (U := plain_urls) alice_login_env
           (welcoming "https://pcpartpicker.com/")
           (mkResult true "Password changed successfully.")).
  - vm_compute. reflexivity.
  - reflexivity.
Defined.

Lemma weather_success_submitted_witness :
  weather_current_password alice_general_env = "P@ss1"
  /\ resolved (weather_submission "P@ss1" "P@ss2!")
       `sublist_of`
       trace (snd (execute (U := plain_urls) WeatherF alice_general_env
                     (idle_at "https://weather.com/"))).
Proof.
  split; [vm_compute; reflexivity |].
  apply (weather_success_submitted (U := plain_urls) alice_general_env
           (idle_at "https://weather.com/")
           (mkResult true "Password changed successfully on weather.com")).
  - vm_compute. reflexivity.
  - reflexivity.
Defined.

Lemma fandom_success_submitted_witness :
  resolved (fandom_submission (Fandom.buildUrls "https://community.fandom.com")
              "alice" "P@ss1" "P@ss2!")
    `sublist_of`
    trace (snd (execute (U := plain_urls) FandomF alice_env
                  (idle_at "https://community.fandom.com/"))).
Proof.
  apply (fandom_success_submitted (U := plain_urls) alice_env
           (idle_at "https://community.fandom.com/")
           (mkResult true
              "Password changed and logout completed. Final URL: https://community.fandom.com/")).
  - vm_compute. reflexivity.
  - reflexivity.
Defined.

Lemma wikipedia_success_submitted_witness :
  resolved (wikipedia_submission (Wikipedia.INPUTS alice_env))
    `sublist_of`
    trace (snd (execute (U := plain_urls) WikipediaF alice_env
                  (welcoming "https://en.wikipedia.org/wiki/Main_Page"))).
Proof.
  apply (wikipedia_success_submitted (U := plain_urls) alice_env
           (welcoming "https://en.wikipedia.org/wiki/Main_Page")
           (mkResult true
              "Logged in and submitted password change successfully.")).
  - vm_compute. reflexivity.
  - reflexivity.
Defined.

(** * The shape of a run *)

Lemma bind_first {A B} (P : Event -> Prop) (m : M A) (k : A -> M B) sc st :
  (forall a, emits P (k a)) ->
  exists l, trace (snd (bind m k sc st)) = (trace (snd (m sc st)) ++ l)%list
            /\ Forall P l.
Proof.
  intros Hk. unfold bind. destruct (m sc st) as [[a | e] st1]; cbn [snd].
  - apply Hk.
  - exists []. rewrite app_nil_r. split; [reflexivity | constructor].
Qed.

Section Shape.
Context {U : UrlApi}.

Lemma after_first_page {B} (k : M B) first sc c :
  emits (fun ev => provider_op (fst ev) = false) k ->
  well_started first
    (trace (snd ((do_ first ;; do_ FirstPage ;; k) sc (init_state c)))).
Proof.
  intros Hk. unfold bind at 1.
  destruct (ans_exn (sc 0)) as [e |] eqn:H0.
  - rewrite (do_rejected first sc (init_state c) e H0). left. exists e. reflexivity.
  - rewrite (do_ok first sc (init_state c) H0). right.
    destruct (bind_first (fun ev => provider_op (fst ev) = false)
                (do_ FirstPage) (fun _ => k) sc
                (record first None (init_state c)) (fun _ => Hk))
      as (l & E & F).
    rewrite E.
    destruct (ans_exn (sc 1)) as [e |] eqn:H1.
    + rewrite (do_rejected FirstPage sc (record first None (init_state c)) e H1).
      exists (Some e), l. split; [reflexivity | exact F].
    + rewrite (do_ok FirstPage sc (record first None (init_state c)) H1).
      exists None, l. split; [reflexivity | exact F].
Qed.

(** X8. Every flow (getAnchorBrowser and the first two statements of each
    entry function): a run starts by acquiring its browser session, by
    connecting to ANCHOR_SESSION_ID when that is set and not empty and by
    creating a session otherwise; if that call is rejected the run ends
    there; otherwise the first page is looked up next, and no call after
    that connects to or creates a session or looks the page up again (the
    later calls are calls on the page and, in the Wikipedia flow, the wait
    for the one-time-code event): no run acquires a second session. *)
Theorem runs_acquire_one_session f env sc :
  well_started (acquire_op env) (trace (snd (execute f env sc))).
Proof.
  unfold execute, start, acquire_op.
  destruct f; cbn [run_flow];
    [ unfold Fandom.FandomChangePasswordFlow, Fandom.getAnchorBrowser, Fandom.sessionId
    | unfold PCPartPicker.pcppChangePasswordTask, PCPartPicker.getAnchorBrowser, PCPartPicker.sessionId
    | unfold Zillow.zillowChangePasswordFlow, Zillow.getAnchorBrowser, Zillow.sessionId
    | unfold Weather.WeatherComChangePassword, Weather.getAnchorBrowser, Weather.sessionId
    | unfold Wikipedia.ChangeWikipediaPassword, Wikipedia.getAnchorBrowser, Wikipedia.sessionId ];
    cbv zeta;
    destruct (negb (String.eqb (or_default (env !! "ANCHOR_SESSION_ID") "") ""));
    apply after_first_page; emits_flow; reflexivity.
Qed.

(** X9. Zillow (safeGoto): when [page.goto] resolves the helper returns
    true after that single call, whatever the response: a missing response
    object or an HTTP error status is logged and does not fail the
    navigation. *)
Theorem zillow_safeGoto_resolved url label timeout sc st :
  ans_exn (sc (length (trace st))) = None ->
  fst (Zillow.safeGoto url label timeout sc st) = Ret true
  /\ trace (snd (Zillow.safeGoto url label timeout sc st))
     = (trace st ++ [(Goto url (Some timeout), None)])%list.
Proof.
  intros H. unfold Zillow.safeGoto, goto. run. rewrite H.
  destruct (ans_resp (sc (length (trace st)))) as [r |]; run;
    [destruct (resp_ok r); run |]; split; reflexivity.
Qed.

End Shape.

Lemma zillow_safeGoto_resolved_witness :
  fst (Zillow.safeGoto (U := plain_urls) "https://www.zillow.com/Logout.htm"
         "Logout" 30000 (fun _ => not_found) (init_state "")) = Ret true
  /\ console (snd (Zillow.safeGoto (U := plain_urls)
                     "https://www.zillow.com/Logout.htm" "Logout" 30000
                     (fun _ => not_found) (init_state "")))
     = [(LogL, "[NAV] Logout: https://www.zillow.com/Logout.htm");
        (ErrorL, "[NAV] Logout: HTTP 404 Not Found")].
Proof.
  split.
  - apply (zillow_safeGoto_resolved (U := plain_urls)
             "https://www.zillow.com/Logout.htm" "Logout" 30000
             (fun _ => not_found) (init_state "")).
    reflexivity.
  - vm_compute. reflexivity.
Defined.

(** * weather.com: the helpers of the dialog steps *)

Section WeatherHelpers.
Context {U : UrlApi}.

(** X10. weather.com (fillInput): the helper waits for the field, clears it
    and then writes the value, and stops at the first of these calls that is
    rejected, throwing that rejection: either all three calls resolved and it
    returns, or the calls before the rejected one resolved, that one is the
    last call made, and its rejection is what the helper throws.  So a value
    is never written into a field that was not seen and cleared first. *)
Theorem weather_fillInput_clears_first selector value sc st :
  exists l,
    trace (snd (Weather.fillInput selector value sc st)) = (trace st ++ l)%list
    /\ ((l = resolved (fillInput_ops selector value)
         /\ fst (Weather.fillInput selector value sc st) = Ret tt)
        \/ (exists done op rest e,
              fillInput_ops selector value = (done ++ op :: rest)%list
              /\ l = (resolved done ++ [(op, Some e)])%list
              /\ fst (Weather.fillInput selector value sc st) = Throw e)).
Proof.
  unfold Weather.fillInput, Weather.waitVisible, fillInput_ops. run.
  destruct (ans_exn (sc (length (trace st)))) as [e0 |]; run.
  { eexists. split; [reflexivity |]. right.
    exists [], (WaitFor (First (Css selector)) Visible (Some 20000%N)),
      [Fill (First (Css selector)) "" None;
       Fill (First (Css selector)) value (Some 15000%N)], e0.
    repeat split. }
  destruct (ans_exn (sc (S (length (trace st))))) as [e1 |]; run.
  { eexists. split; [cbn [record trace]; rewrite <- ?app_assoc; reflexivity |].
    right.
    exists [WaitFor (First (Css selector)) Visible (Some 20000%N)],
      (Fill (First (Css selector)) "" None),
      [Fill (First (Css selector)) value (Some 15000%N)], e1.
    repeat split. }
  destruct (ans_exn (sc (S (S (length (trace st)))))) as [e2 |]; run.
  { eexists. split; [cbn [record trace]; rewrite <- ?app_assoc; reflexivity |].
    right.
    exists [WaitFor (First (Css selector)) Visible (Some 20000%N);
            Fill (First (Css selector)) "" None],
      (Fill (First (Css selector)) value (Some 15000%N)), [], e2.
    repeat split. }
  eexists. split; [cbn [record trace]; rewrite <- ?app_assoc; reflexivity |].
  left. split; reflexivity.
Qed.

(** X11. weather.com (Step G of WeatherComChangePassword): the verification
    never throws.  It reports success when the current-password field is
    detached within 20 s or, failing that, hidden within 8 s; otherwise it
    reports a failure whose message carries the error hint read from the
    page, or "Unknown error" when the hint cannot be read. *)
Theorem weather_verify_outcome sc st :
  let n := length (trace st) in
  fst (Weather.verify sc st)
  = match ans_exn (sc n), ans_exn (sc (S n)) with
    | Some _, Some _ => Ret (weather_verify_failure (sc (S (S n))))
    | _, _ => Ret weather_success
    end.
Proof.
  unfold Weather.verify, weather_verify_failure, weather_success. run.
  destruct (ans_exn (sc (length (trace st)))) as [e0 |]; run; [| reflexivity].
  destruct (ans_exn (sc (S (length (trace st))))) as [e1 |]; run; [| reflexivity].
  cbn [negb]. run.
  destruct (ans_exn (sc (S (S (length (trace st)))))) as [e2 |]; run; reflexivity.
Qed.

Lemma weather_avatar_route_total :
  total (try_catch
           (Weather.clickWithRetry Weather.avatarSel 2 ;;
            do_ (WaitForLoadState OnLoad (Some 15000%N)) ;;
            url <- page_url ;;
            ret (includes url "/member/settings"))
           (fun _ => ret false)).
Proof. apply total_try_catch. intros e. apply total_ret. Qed.

Lemma weather_gotoWithLoad_throws url timeout sc st e st' :
  Weather.gotoWithLoad url timeout sc st = (Throw e, st') ->
  exists err,
    trace st' = (trace st ++ [(Goto url (Some timeout), Some err); (PageUrl, None)])%list
    /\ (e = err \/ e = Weather.invalid_url).
Proof.
  unfold Weather.gotoWithLoad. run.
  destruct (ans_exn (sc (length (trace st)))) as [err |]; run; [| discriminate].
  destruct (url_hostname url) as [h |]; run.
  - destruct (includes _ h); run; [discriminate |].
    intros H. injection H as <- <-. exists err. split.
    + cbn [record trace]. rewrite <- ?app_assoc. reflexivity.
    + left. reflexivity.
  - intros H. injection H as <- <-. exists err. split.
    + cbn [record trace]. rewrite <- ?app_assoc. reflexivity.
    + right. reflexivity.
Qed.

Lemma weather_open_settings_throws base sc st e st' :
  Weather.open_settings base sc st = (Throw e, st') ->
  exists l err,
    trace st'
    = (trace st ++ l
       ++ [(Goto (base +:+ "/member/settings") (Some 45000%N), Some err);
           (PageUrl, None)])%list
    /\ (e = err \/ e = Weather.invalid_url).
Proof.
  unfold Weather.open_settings. unfold console_log at 1. rewrite bind_console.
  set (st0 := {| trace := trace st; console := _; totpCode := _ |}).
  destruct (weather_avatar_route_total sc st0) as (nav & st1 & E1).
  assert (Ht : exists l, trace st1 = (trace st ++ l)%list).
  { assert (Hem : emits (fun _ => True)
                    (try_catch
                       (Weather.clickWithRetry Weather.avatarSel 2 ;;
                        do_ (WaitForLoadState OnLoad (Some 15000%N)) ;;
                        url <- page_url ;;
                        ret (includes url "/member/settings"))
                       (fun _ => ret false))).
    { emits_flow; exact I. }
    destruct (Hem sc st0) as (l & El & _). rewrite E1 in El. exists l. exact El. }
  destruct Ht as (l & El).
  rewrite (bind_ret_eq _ _ _ _ _ _ E1).
  destruct nav; cbn [negb].
  - intros H. discriminate H.
  - unfold console_log at 1. rewrite bind_console. intros E2.
    destruct (weather_gotoWithLoad_throws _ _ _ _ _ _ E2) as (err & Et & He).
    exists l, err. split; [| exact He].
    rewrite Et. cbn [trace]. rewrite El, <- app_assoc. reflexivity.
Qed.

(** X12. weather.com (Step C of WeatherComChangePassword): opening the
    settings page fails only through its fallback.  Whatever goes wrong on
    the avatar route is dropped; if the step throws, the direct navigation to
    [/member/settings] was rejected and the page URL read after it, these
    being the last two calls, and the value thrown is that rejection (or the
    URL constructor's error for a base address that does not parse). *)
Theorem weather_open_settings_failure base sc st e :
  fst (Weather.open_settings base sc st) = Throw e ->
  exists l err,
    trace (snd (Weather.open_settings base sc st))
    = (trace st ++ l
       ++ [(Goto (base +:+ "/member/settings") (Some 45000%N), Some err);
           (PageUrl, None)])%list
    /\ (e = err \/ e = Weather.invalid_url).
Proof.
  destruct (Weather.open_settings base sc st) as [r st'] eqn:E.
  cbn [fst snd]. intros ->.
  exact (weather_open_settings_throws base sc st e st' E).
Qed.

End WeatherHelpers.

Lemma weather_open_settings_failure_witness :
  exists l err,
    trace (snd (Weather.open_settings (U := plain_urls) "https://weather.com"
                  weather_settings_unreachable (init_state "")))
    = ([] ++ l
       ++ [(Goto "https://weather.com/member/settings" (Some 45000%N), Some err);
           (PageUrl, None)])%list
    /\ (timeout_error = err \/ timeout_error = Weather.invalid_url).
Proof.
  apply (weather_open_settings_failure (U := plain_urls) "https://weather.com"
           weather_settings_unreachable (init_state "") timeout_error).
  vm_compute. reflexivity.
Defined.

(** * Results *)

Section Returns.
Context {A B : Type}.

Lemma returns_ret (Q : A -> Prop) (a : A) : Q a -> returns Q (ret a).
Proof. intros H sc st a' st' E. injection E as <- _. exact H. Qed.

Lemma returns_throw (Q : A -> Prop) e : returns Q (throw e).
Proof. intros sc st a st' E. discriminate E. Qed.

Lemma returns_bind (Q : B -> Prop) (m : M A) (k : A -> M B) :
  (forall a, returns Q (k a)) -> returns Q (bind m k).
Proof.
  intros Hk sc st b st' E.
  destruct (bind_inv m k sc st (Ret b) st' E) as [(a & st1 & _ & E2) | (e & _ & E2)].
  - exact (Hk a sc st1 b st' E2).
  - discriminate E2.
Qed.

Lemma returns_try_catch (Q : A -> Prop) (m : M A) h :
  returns Q m -> (forall e, returns Q (h e)) -> returns Q (try_catch m h).
Proof.
  intros Hm Hh sc st a st' E. unfold try_catch in E.
  destruct (m sc st) as [[a1 | e] st1] eqn:E1.
  - injection E as <- <-. exact (Hm sc st a1 st1 E1).
  - exact (Hh e sc st1 a st' E).
Qed.

End Returns.

Ltac returns_step :=
  lazymatch goal with
  | |- returns _ (bind _ _) => apply returns_bind; intros ?
  | |- returns _ (try_catch _ _) => apply returns_try_catch; [| intros ?]
  | |- returns _ (throw _) => apply returns_throw
  | |- returns _ (ret _) => apply returns_ret
  | |- returns _ (if ?b then _ else _) => destruct b
  | |- returns _ (match ?x with _ => _ end) => destruct x
  | |- returns _ (let _ := _ in _) => cbv zeta
  end.

Ltac returns_flow :=
  repeat (first [ returns_step | progress unfold_flows ]).

Section Results.
Context {U : UrlApi}.

Lemma flows_flag_matches f env :
  returns (flag_matches_message f) (run_flow f env).
Proof.
  destruct f; cbn [run_flow]; returns_flow;
    unfold flag_matches_message, success_text; cbn [success message];
    vm_compute; reflexivity.
Qed.

(** X13. Every flow: in the result a run returns, the flag and the message
    agree: [success] is true exactly when the message begins with the flow's
    success text, so no failure (a missing input, a step that gave up, an
    exception caught) is reported under a success message, nor a success under
    a failure message. *)
Theorem result_flag_matches_message f env sc r st :
  execute f env sc = (Ret r, st) ->
  success r = starts_with (message r) (success_text f).
Proof. intros E. exact (flows_flag_matches f env sc (start f env) r st E). Qed.

End Results.

(** A Wikipedia run that cannot confirm the login. *)
Lemma result_flag_matches_message_witness :
  let r := mkResult false
             "Failed during workflow: Login unsuccessful: could not confirm logged-in state." in
  fst (execute (U := plain_urls) WikipediaF alice_env (fun _ => ok_answer)) = Ret r
  /\ success r = starts_with (message r) (success_text WikipediaF).
Proof.
  split.
  - vm_compute. reflexivity.
  - apply (result_flag_matches_message (U := plain_urls) WikipediaF alice_env
             (fun _ => ok_answer)
             (mkResult false
                "Failed during workflow: Login unsuccessful: could not confirm logged-in state.")
             (snd (execute (U := plain_urls) WikipediaF alice_env
                     (fun _ => ok_answer)))).
    vm_compute. reflexivity.
Defined.

(** * Wikipedia: the one-time code *)

Section Keeps.
Context {A B : Type}.
Variable c : string.
Variable P : Event -> Prop.

Lemma keeps_ret (a : A) : keeps c P (ret a).
Proof.
  intros sc st Hc. exists []. rewrite app_nil_r.
  split; [reflexivity |]. split; [constructor | exact Hc].
Qed.

Lemma keeps_throw e : keeps c P (throw (A := A) e).
Proof.
  intros sc st Hc. exists []. rewrite app_nil_r.
  split; [reflexivity |]. split; [constructor | exact Hc].
Qed.

Lemma keeps_bind (m : M A) (k : A -> M B) :
  keeps c P m -> (forall a, keeps c P (k a)) -> keeps c P (bind m k).
Proof.
  intros Hm Hk sc st Hc. unfold bind.
  destruct (Hm sc st Hc) as (l1 & E1 & F1 & C1).
  destruct (m sc st) as [[a | e] st1]; cbn [snd] in *.
  - destruct (Hk a sc st1 C1) as (l2 & E2 & F2 & C2).
    exists (l1 ++ l2)%list. split; [rewrite E2, E1, app_assoc; reflexivity |].
    split; [apply Forall_app; split; assumption | exact C2].
  - exists l1. repeat split; assumption.
Qed.

Lemma keeps_try_catch (m : M A) h :
  keeps c P m -> (forall e, keeps c P (h e)) -> keeps c P (try_catch m h).
Proof.
  intros Hm Hh sc st Hc. unfold try_catch.
  destruct (Hm sc st Hc) as (l1 & E1 & F1 & C1).
  destruct (m sc st) as [[a | e] st1]; cbn [snd] in *.
  - exists l1. repeat split; assumption.
  - destruct (Hh e sc st1 C1) as (l2 & E2 & F2 & C2).
    exists (l1 ++ l2)%list. split; [rewrite E2, E1, app_assoc; reflexivity |].
    split; [apply Forall_app; split; assumption | exact C2].
Qed.

Lemma keeps_call op : (forall x, P (op, x)) -> keeps c P (call op).
Proof.
  intros H sc st Hc. unfold call.
  destruct (ans_exn (sc (length (trace st)))) as [e |]; cbn [snd record trace totpCode];
    eexists; (split; [reflexivity |]); (split; [| exact Hc]);
    repeat constructor; apply H.
Qed.

Lemma keeps_call_total op : P (op, None) -> keeps c P (call_total op).
Proof.
  intros H sc st Hc. unfold call_total. cbn [snd record trace totpCode].
  eexists. split; [reflexivity |]. split; [| exact Hc]. repeat constructor. exact H.
Qed.

Lemma keeps_console lv line : keeps c P (console_write lv line).
Proof.
  intros sc st Hc. exists []. cbn. rewrite app_nil_r.
  split; [reflexivity |]. split; [constructor | exact Hc].
Qed.

(** Reading the stored code gives [c]. *)
Lemma keeps_get_totp (k : string -> M B) :
  keeps c P (k c) -> keeps c P (bind get_totp k).
Proof.
  intros Hk sc st Hc. unfold bind, get_totp. rewrite Hc. exact (Hk sc st Hc).
Qed.

(** [waitVisible] hands back the locator it was given. *)
Lemma keeps_waitVisible (loc : Locator) label timeout (k : Locator -> M B) :
  (forall x, P (WaitFor (First loc) Visible (Some timeout), x)) ->
  keeps c P (k (First loc)) ->
  keeps c P (bind (Wikipedia.waitVisible loc label timeout) k).
Proof.
  intros HP Hk sc st Hc. unfold Wikipedia.waitVisible. run.
  destruct (ans_exn (sc (length (trace st)))) as [e |]; run.
  - eexists. split; [reflexivity |]. split; [| exact Hc].
    repeat constructor. apply HP.
  - match goal with
    | |- context [k (First loc) sc ?s] =>
        destruct (Hk sc s Hc) as (l2 & E2 & F2 & C2)
    end.
    cbn [record trace] in E2. eexists. split; [rewrite E2, <- ?app_assoc; reflexivity |].
    split; [| exact C2]. constructor; [apply HP | exact F2].
Qed.

End Keeps.

Ltac keeps_step :=
  lazymatch goal with
  | |- keeps _ _ (bind get_totp _) => apply keeps_get_totp
  | |- keeps _ _ (bind (Wikipedia.waitVisible _ _ _) _) =>
      apply keeps_waitVisible; [intros ? |]
  | |- keeps _ _ (bind _ _) => apply keeps_bind; [| intros ?]
  | |- keeps _ _ (try_catch _ _) => apply keeps_try_catch; [| intros ?]
  | |- keeps _ _ (ret _) => apply keeps_ret
  | |- keeps _ _ (throw _) => apply keeps_throw
  | |- keeps _ _ (call _) => apply keeps_call; intros ?
  | |- keeps _ _ (call_total _) => apply keeps_call_total
  | |- keeps _ _ (console_write _ _) => apply keeps_console
  | |- keeps _ _ (if String.eqb ?s "" then _ else _) =>
      match goal with
      | H : String.eqb s "" = false |- _ => rewrite H
      end
  | |- keeps _ _ (if ?b then _ else _) => destruct b
  | |- keeps _ _ (match ?x with _ => _ end) => destruct x
  | |- keeps _ _ (let _ := _ in _) => cbv zeta
  end.

Ltac unfold_wikipedia :=
  unfold Wikipedia.ChangeWikipediaPassword, Wikipedia.steps, Wikipedia.login,
    Wikipedia.navigateToChangePassword, Wikipedia.changePassword,
    Wikipedia.verifyIdentityIfPrompted, Wikipedia.handleTwoFactorIfPresent,
    Wikipedia.ensureLoggedIn, Wikipedia.safeGoto,
    Wikipedia.safeWaitForLoad, Wikipedia.on_error, Wikipedia.getAnchorBrowser.

Ltac keeps_flow :=
  repeat (first [ keeps_step
                | progress flow_unfold
                | progress unfold_wikipedia ]).

Ltac code_side :=
  unfold uses_configured_code, twoFAInput; cbn [fst];
  first [ exact I
        | intros _; reflexivity
        | let E := fresh in
          intros E;
          repeat match type of E with
                 | context [if ?b then _ else _] => destruct b
                 end;
          discriminate E ].

Section ConfiguredCode.
Context {U : UrlApi}.

Lemma wikipedia_keeps_code env :
  Wikipedia.initial_totpCode env <> "" ->
  keeps (Wikipedia.initial_totpCode env)
    (uses_configured_code (Wikipedia.initial_totpCode env))
    (run_flow WikipediaF env).
Proof.
  intros Hc. apply String.eqb_neq in Hc.
  cbn [run_flow]. keeps_flow; code_side.
Qed.

(** X14. Wikipedia (handleTwoFactorIfPresent, within
    ChangeWikipediaPassword): when a one-time code is configured in
    ANCHOR_WIKI_TOTP_CODE, no run waits for a code from the events service,
    whatever a run types into the one-time-code field is the configured
    code, and the stored code is never overwritten: it is the configured one
    when the run ends. *)
Theorem wikipedia_configured_code_used env sc :
  Wikipedia.initial_totpCode env <> "" ->
  Forall (uses_configured_code (Wikipedia.initial_totpCode env))
    (trace (snd (execute WikipediaF env sc)))
  /\ totpCode (snd (execute WikipediaF env sc)) = Wikipedia.initial_totpCode env.
Proof.
  intros Hc. unfold execute.
  destruct (wikipedia_keeps_code env Hc sc (start WikipediaF env) eq_refl)
    as (l & E & F & C).
  split; [rewrite E; exact F | exact C].
Qed.

End ConfiguredCode.

(** The login is answered with the two-factor page: the configured code is
    what the run types. *)
Lemma wikipedia_configured_code_used_witness :
  Wikipedia.initial_totpCode alice_totp_env = "123456"
  /\ In (TypeText twoFAInput "123456" 20, None)
        (trace (snd (execute (U := plain_urls) WikipediaF alice_totp_env
                       two_factor_page)))
  /\ Forall (uses_configured_code "123456")
        (trace (snd (execute (U := plain_urls) WikipediaF alice_totp_env
                       two_factor_page)))
  /\ totpCode (snd (execute (U := plain_urls) WikipediaF alice_totp_env
                      two_factor_page)) = "123456".
Proof.
  split; [vm_compute; reflexivity |]. split.
  - vm_compute. do 22 right. left. reflexivity.
  - apply (wikipedia_configured_code_used (U := plain_urls) alice_totp_env
             two_factor_page).
    vm_compute. discriminate.
Defined.

Lemma bind_ret_run {A B} (a : A) (k : A -> M B) sc st :
  bind (ret a) k sc st = k a sc st.
Proof. reflexivity. Qed.

Lemma bind_get_totp_run {B} (k : string -> M B) sc st :
  bind get_totp k sc st = k (totpCode st) sc st.
Proof. reflexivity. Qed.

Lemma bind_set_totp_run {B} v (k : unit -> M B) sc st :
  bind (set_totp v) k sc st
  = k tt sc {| trace := trace st; console := console st; totpCode := v |}.
Proof. reflexivity. Qed.

Lemma call_ok op sc st :
  ans_exn (sc (length (trace st))) = None ->
  call op sc st = (Ret (sc (length (trace st))), record op None st).
Proof. intros H. unfold call. rewrite H. reflexivity. Qed.

Lemma count_ok l sc st :
  ans_exn (sc (length (trace st))) = None ->
  count l sc st = (Ret (ans_nat (sc (length (trace st)))), record (Count l) None st).
Proof. intros H. unfold count, bind. rewrite (call_ok _ _ _ H). reflexivity. Qed.

(** X15. Wikipedia (handleTwoFactorIfPresent): with no one-time code
    configured and the two-factor page found, the helper asks the events
    service for a code.  An event without a code makes it throw "No OTP data
    received from event." before the code field is touched; the code of an
    event that carries one is stored, and is what the helper types into the
    code field. *)
Theorem wikipedia_code_from_event sc st r st' :
  totpCode st = "" ->
  ans_exn (sc (length (trace st))) = None ->
  0 < ans_nat (sc (length (trace st))) ->
  ans_exn (sc (S (length (trace st)))) = None ->
  Wikipedia.handleTwoFactorIfPresent sc st = (r, st') ->
  exists l,
    trace st' = (trace st ++ code_requested ++ l)%list
    /\ if truthy (ans_otp (sc (S (length (trace st)))))
       then totpCode st' = the (ans_otp (sc (S (length (trace st)))))
            /\ Forall (uses_configured_code
                         (the (ans_otp (sc (S (length (trace st))))))) l
       else l = []
            /\ r = Throw (Wikipedia.new_Error "No OTP data received from event.").
Proof.
  intros Hc H0 Hn H1 E.
  unfold Wikipedia.handleTwoFactorIfPresent in E. cbv zeta in E.
  rewrite (bind_ret_eq _ _ _ _ _ _ (count_ok _ sc st H0)) in E.
  apply Nat.ltb_lt in Hn. rewrite Hn in E.
  rewrite bind_ret_run in E.
  unfold console_log at 1 in E. rewrite bind_console in E.
  rewrite bind_get_totp_run in E. cbn [totpCode record] in E. rewrite Hc in E.
  change (String.eqb "" "") with true in E. cbv iota in E.
  rewrite bind_assoc_run in E.
  unfold console_log at 1 in E. rewrite bind_console in E.
  rewrite bind_assoc_run in E.
  match type of E with
  | bind (call ?op) _ _ ?s = _ =>
      assert (E1 : call op sc s
                   = (Ret (sc (S (length (trace st)))), record op None s))
  end.
  { unfold call. cbn [trace]. rewrite length_record, H1. reflexivity. }
  rewrite (bind_ret_eq _ _ _ _ _ _ E1) in E.
  destruct (truthy (ans_otp (sc (S (length (trace st)))))) eqn:Ht; cbn [negb] in E.
  - rewrite bind_set_totp_run in E.
    match type of E with
    | ?m sc ?s = _ =>
        assert (K : keeps (the (ans_otp (sc (S (length (trace st))))))
                      (uses_configured_code
                         (the (ans_otp (sc (S (length (trace st))))))) m)
          by (keeps_flow; code_side);
        destruct (K sc s eq_refl) as (l & El & Fl & Cl)
    end.
    rewrite E in El, Cl. cbn [snd] in El, Cl. exists l. split.
    + rewrite El. cbn [record trace]. rewrite <- !app_assoc. reflexivity.
    + split; [exact Cl | exact Fl].
  - unfold bind at 1, throw in E. injection E as <- <-. exists []. split.
    + cbn [record trace]. rewrite <- !app_assoc. reflexivity.
    + split; reflexivity.
Qed.

(** The two-factor page is found and the event brings the code 654321. *)
Lemma wikipedia_code_from_event_witness :
  exists l,
    trace (snd (Wikipedia.handleTwoFactorIfPresent two_factor_then_event
                  (init_state "")))
    = ([] ++ code_requested ++ l)%list
    /\ totpCode (snd (Wikipedia.handleTwoFactorIfPresent two_factor_then_event
                        (init_state ""))) = "654321"
    /\ Forall (uses_configured_code "654321") l.
Proof.
  destruct (wikipedia_code_from_event two_factor_then_event (init_state "")
              (fst (Wikipedia.handleTwoFactorIfPresent two_factor_then_event
                      (init_state "")))
              (snd (Wikipedia.handleTwoFactorIfPresent two_factor_then_event
                      (init_state ""))))
    as (l & El & Hl).
  - reflexivity.
  - reflexivity.
  - vm_compute. lia.
  - reflexivity.
  - destruct (Wikipedia.handleTwoFactorIfPresent _ _). reflexivity.
  - exists l. split; [exact El |]. exact Hl.
Defined.

(** * Wikipedia: a session that is already logged in *)

Lemma append_inj_l (a x y : string) : a +:+ x = a +:+ y -> x = y.
Proof.
  induction a as [| c a IH]; intros H; [exact H |].
  rewrite !append_cons in H. injection H as H. exact (IH H).
Qed.

Ltac not_login_navigation :=
  unfold wikipedia_login_navigation; cbn [fst];
  first [ discriminate
        | let E := fresh in
          intros E; injection E as E; apply append_inj_l in E; discriminate E ].

Section LoggedIn.
Context {U : UrlApi}.

Lemma wikipedia_login_skipped I sc st :
  ans_exn (sc (length (trace st))) = None ->
  ans_nat (sc (length (trace st))) <> 0 ->
  Wikipedia.login I sc st
  = (Ret tt,
     {| trace := (trace st ++ [(Count (First (Css "#pt-userpage")), None)])%list;
        console := (console st
                    ++ [(LogL, "[auth] Already logged in (found #pt-userpage).")])%list;
        totpCode := totpCode st |}).
Proof.
  intros H0 Hn. unfold Wikipedia.login, Wikipedia.ensureLoggedIn.
  rewrite bind_assoc_run.
  rewrite (bind_ret_eq _ _ _ _ _ _ (count_ok _ sc st H0)).
  apply Nat.eqb_neq in Hn. rewrite Hn. cbn [negb].
  rewrite bind_assoc_run. unfold console_log at 1. rewrite bind_console.
  reflexivity.
Qed.

(** X16. Wikipedia (login, ensureLoggedIn): a session that is already
    logged in, that is, whose page shows [#pt-userpage] when the flow first
    looks, is never sent to the login page: no run of the flow navigates to
    [Special:UserLogin] then. *)
Theorem wikipedia_logged_in_session_kept env sc :
  ans_exn (sc 2) = None -> ans_nat (sc 2) <> 0 ->
  Forall (fun ev => fst ev <> wikipedia_login_navigation env)
    (trace (snd (execute WikipediaF env sc))).
Proof.
  intros H2 Hn.
  assert (Hacq : Forall (fun ev => fst ev <> wikipedia_login_navigation env)
                   (trace (acquired WikipediaF env))).
  { cbn. unfold acquire_op. destruct (negb _); repeat constructor; discriminate. }
  destruct (ans_exn (sc 0)) as [e0 |] eqn:H0.
  { rewrite (execute_provider_down WikipediaF env sc e0 H0). cbn.
    unfold acquire_op. destruct (negb _); repeat constructor; discriminate. }
  destruct (ans_exn (sc 1)) as [e1 |] eqn:H1.
  { rewrite (execute_no_page WikipediaF env sc e1 H0 H1). cbn.
    unfold acquire_op. destruct (negb _); repeat constructor; discriminate. }
  destruct (input_missing WikipediaF env) eqn:Hm.
  { destruct (execute_missing WikipediaF env sc (conj H0 H1) Hm) as (msg & E & _).
    rewrite E. exact Hacq. }
  rewrite (execute_valid WikipediaF env sc (conj H0 H1) Hm).
  cbn [flow_steps flow_on_error]. unfold Wikipedia.steps, try_catch at 1.
  rewrite (bind_ret_eq _ _ _ _ _ _
             (wikipedia_login_skipped (Wikipedia.INPUTS env) sc
                (acquired WikipediaF env) H2 Hn)).
  match goal with
  | |- context [match ?m sc ?s with _ => _ end] =>
      change (Forall (fun ev => fst ev <> wikipedia_login_navigation env)
                (trace (snd (try_catch m Wikipedia.on_error sc s))));
      assert (K : emits (fun ev => fst ev <> wikipedia_login_navigation env)
                    (try_catch m Wikipedia.on_error))
        by (emits_flow; not_login_navigation);
      destruct (K sc s) as (l & El & Fl)
  end.
  rewrite El. cbn [trace]. apply Forall_app. split; [| exact Fl].
  apply Forall_app. split; [exact Hacq |]. repeat constructor. discriminate.
Qed.

End LoggedIn.

Lemma wikipedia_logged_in_session_kept_witness :
  fst (execute (U := plain_urls) WikipediaF alice_env logged_in_page)
  = Ret {| success := true;
           message := "Logged in and submitted password change successfully." |}
  /\ Forall (fun ev => fst ev <> wikipedia_login_navigation alice_env)
       (trace (snd (execute (U := plain_urls) WikipediaF alice_env logged_in_page))).
Proof.
  split; [vm_compute; reflexivity |].
  apply (wikipedia_logged_in_session_kept (U := plain_urls) alice_env
           logged_in_page).
  - reflexivity.
  - vm_compute. discriminate.
Defined.

(** * Failures and the error log *)

Section Hoare.
Context {A B : Type}.

Lemma hoare_ret pre (a : A) (post : A -> State -> Prop) :
  (forall st, pre st -> post a st) -> hoare pre (ret a) post.
Proof. intros H sc st a' st' Hp E. injection E as <- <-. exact (H st Hp). Qed.

Lemma hoare_throw pre e (post : A -> State -> Prop) : hoare pre (throw e) post.
Proof. intros sc st a st' _ E. discriminate E. Qed.

Lemma hoare_bind pre (mid : A -> State -> Prop) (post : B -> State -> Prop)
    (m : M A) (k : A -> M B) :
  hoare pre m mid -> (forall a, hoare (mid a) (k a) post) ->
  hoare pre (bind m k) post.
Proof.
  intros Hm Hk sc st b st' Hp E.
  destruct (bind_inv m k sc st (Ret b) st' E) as [(a & st1 & E1 & E2) | (e & _ & E2)].
  - exact (Hk a sc st1 b st' (Hm sc st a st1 Hp E1) E2).
  - discriminate E2.
Qed.

Lemma hoare_bind_any pre (post : B -> State -> Prop) (m : M A) (k : A -> M B) :
  (forall a, hoare (fun _ => True) (k a) post) -> hoare pre (bind m k) post.
Proof.
  intros Hk. apply (hoare_bind pre (fun _ _ => True)); [| exact Hk].
  intros sc st a st' _ _. exact I.
Qed.

Lemma hoare_try_catch pre (post : A -> State -> Prop) (m : M A) h :
  hoare pre m post -> (forall e, hoare (fun _ => True) (h e) post) ->
  hoare pre (try_catch m h) post.
Proof.
  intros Hm Hh sc st a st' Hp E. unfold try_catch in E.
  destruct (m sc st) as [[a1 | e] st1] eqn:E1.
  - injection E as <- <-. exact (Hm sc st a1 st1 Hp E1).
  - exact (Hh e sc st1 a st' I E).
Qed.

Lemma hoare_weaken (pre pre' : State -> Prop) (post : A -> State -> Prop) m :
  hoare pre' m post -> (forall st, pre st -> pre' st) -> hoare pre m post.
Proof. intros H Hw sc st a st' Hp E. exact (H sc st a st' (Hw st Hp) E). Qed.

(** After [console.error] an error line is there. *)
Lemma hoare_bind_error pre (post : A -> State -> Prop) line (k : unit -> M A) :
  (forall u, hoare logged (k u) post) ->
  hoare pre (bind (console_write ErrorL line) k) post.
Proof.
  intros Hk sc st a st' _ E. rewrite bind_console in E.
  refine (Hk tt sc _ a st' _ E).
  exists line. cbn [console]. apply in_or_app. right. left. reflexivity.
Qed.

End Hoare.

Ltac hoare_ret_side :=
  let st := fresh "st" in
  let Hp := fresh "Hp" in
  intros st Hp;
  first [ exact Hp
        | exact I
        | let H := fresh in intros H; discriminate H
        | intros _; exact Hp ].

Ltac hoare_step :=
  lazymatch goal with
  | |- hoare _ (bind (console_write ErrorL _) _) _ =>
      apply hoare_bind_error; intros ?
  | |- hoare _ (bind _ _) _ => apply hoare_bind_any; intros ?
  | |- hoare _ (try_catch _ _) _ => apply hoare_try_catch; [| intros ?]
  | |- hoare _ (throw _) _ => apply hoare_throw
  | |- hoare _ (ret _) _ => apply hoare_ret; hoare_ret_side
  | |- hoare _ (if ?b then _ else _) _ => destruct b
  | |- hoare _ (match ?x with _ => _ end) _ => destruct x
  | |- hoare _ (let _ := _ in _) _ => cbv zeta
  end.

Ltac hoare_auto :=
  repeat (first [ progress unfold console_error, goto | hoare_step ]).

Section Loud.
Context {U : UrlApi}.

Lemma zillow_safeGoto_loud url label timeout :
  hoare (fun _ => True) (Zillow.safeGoto url label timeout) false_logged.
Proof. unfold Zillow.safeGoto, false_logged. hoare_auto. Qed.

Lemma zillow_expectVisible_loud locator desc timeout :
  hoare (fun _ => True) (Zillow.expectVisible locator desc timeout) false_logged.
Proof. unfold Zillow.expectVisible, false_logged. hoare_auto. Qed.

Lemma zillow_expectVisible_next (b : bool) locator desc timeout :
  hoare (false_logged b)
    (if b then Zillow.expectVisible locator desc timeout else ret false)
    false_logged.
Proof.
  destruct b.
  - apply (hoare_weaken _ (fun _ => True)); [apply zillow_expectVisible_loud | auto].
  - apply hoare_ret. intros st Hp. exact Hp.
Qed.

Ltac zillow_step :=
  lazymatch goal with
  | |- hoare _ (bind (Zillow.safeGoto _ _ _) _) _ =>
      apply (hoare_bind _ false_logged);
      [ apply (hoare_weaken _ (fun _ => True));
        [apply zillow_safeGoto_loud | auto]
      | intros ? ]
  | |- hoare _ (bind (Zillow.expectVisible _ _ _) _) _ =>
      apply (hoare_bind _ false_logged);
      [ apply (hoare_weaken _ (fun _ => True));
        [apply zillow_expectVisible_loud | auto]
      | intros ? ]
  | |- hoare _ (bind (if _ then Zillow.expectVisible _ _ _ else ret false) _) _ =>
      apply (hoare_bind _ false_logged);
      [ apply zillow_expectVisible_next | intros ? ]
  | |- hoare _ (if negb ?b then Zillow.failure _ else _) _ =>
      destruct b; cbn [negb];
      [ | unfold Zillow.failure; apply hoare_ret; intros ? Hp; exact Hp ]
  end.

Lemma flows_failures_logged f env :
  hoare (fun _ => True) (run_flow f env) failure_logged.
Proof.
  destruct f; cbn [run_flow].
  - unfold Fandom.FandomChangePasswordFlow, Fandom.steps,
      Fandom.logout_and_finish, Fandom.on_error, failure_logged.
    hoare_auto.
  - unfold PCPartPicker.pcppChangePasswordTask, PCPartPicker.steps,
      PCPartPicker.verify, PCPartPicker.on_error, failure_logged.
    hoare_auto.
  - unfold Zillow.zillowChangePasswordFlow, Zillow.steps,
      Zillow.logout_and_finish, Zillow.on_error.
    repeat (first [ progress unfold console_error | zillow_step | hoare_step ]).
  - unfold Weather.WeatherComChangePassword, Weather.steps, Weather.verify,
      Weather.on_error, failure_logged.
    hoare_auto.
  - unfold Wikipedia.ChangeWikipediaPassword, Wikipedia.steps,
      Wikipedia.on_error, failure_logged.
    hoare_auto.
Qed.

(** X17. Every flow: no failure is silent.  Whenever a run returns a result
    with [success] false (an input missing, an element that did not show, a
    navigation that failed, a check that did not pass, an exception caught), a
    line has been written to the console at error level by then. *)
Theorem failures_are_logged f env sc r st :
  execute f env sc = (Ret r, st) -> success r = false ->
  exists line, In (ErrorL, line) (console st).
Proof.
  intros E Hs.
  exact (flows_failures_logged f env sc (start f env) r st I E Hs).
Qed.

End Loud.

(** Zillow gives up because the e-mail field does not show: the result
    message is not itself logged, the failed wait is. *)
Lemma failures_are_logged_witness :
  fst (execute (U := plain_urls) ZillowF alice_env nothing_shows)
  = Ret {| success := false; message := "Email input not available" |}
  /\ exists line,
       In (ErrorL, line)
          (console (snd (execute (U := plain_urls) ZillowF alice_env
                           nothing_shows))).
Proof.
  split; [vm_compute; reflexivity |].
  apply (failures_are_logged (U := plain_urls) ZillowF alice_env nothing_shows
           {| success := false; message := "Email input not available" |}).
  - vm_compute. reflexivity.
  - reflexivity.
Defined.
